(** * Zephyr POSIX eventfd (lib/posix/eventfd.c): a shallow embedding

    The event object is a 64-bit counter guarded by a mutex, with two binary
    semaphores used as wake-up hints.  The embedding follows the C file
    function by function.  A call is run on its own (no other thread is
    scheduled in between), so every critical section under [cnt_mtx] is one
    atomic state change and a thread parked in [k_sem_take(.., K_FOREVER)] on
    an empty semaphore is reported as [Suspended].

    Integers are [Z]: [eventfd_t] is [uint64_t] with its wrap-around written
    as [u64], [unsigned int] is 32 bits wide ([unsigned_int]), and the bit
    operations on [int] and [short] are those of [Z] (two's complement). *)

From Stdlib Require Import ZArith List Bool Lia.
Import ListNotations.
Local Open Scope Z_scope.

(** ** Machine integers *)

Definition UINT64_MAX : Z := 2 ^ 64 - 1.

(** Arithmetic on [eventfd_t] (that is [uint64_t]) wraps modulo 2^64. *)
Definition u64 (z : Z) : Z := z mod 2 ^ 64.

Definition UINT_MAX : Z := 2 ^ 32 - 1.

(** Conversion of an argument to a parameter of type [unsigned int]. *)
Definition unsigned_int (z : Z) : Z := z mod 2 ^ 32.

Definition sizeof_eventfd_t : Z := 8.

(** ** Results of a call *)

Inductive errno_t : Type := EINVAL | EAGAIN | ENOMEM | EOPNOTSUPP.

(** [Returned r]: the call returned [r] and left [errno] alone.
    [Failed e]: the call stored [e] in [errno] and returned [-1].
    [Suspended]: the caller is parked in [k_sem_take(.., K_FOREVER)]. *)
Inductive outcome : Type :=
| Returned (ret : Z)
| Failed (errno : errno_t)
| Suspended.

Definition retval (o : outcome) : option Z :=
  match o with
  | Returned r => Some r
  | Failed _ => Some (-1)
  | Suspended => None
  end.

(** ** Kernel semaphores *)

Record k_sem : Type := { count : Z; limit : Z }.

(** Modelled from the spec: the kernel semaphore ([k_sem_init], [k_sem_give],
    [k_sem_take]) is not among the sources.  The spec calls the two
    semaphores binary wake signals that are initialised, asserted,
    consumed/reset without waiting, and blocked on until asserted. *)
Definition k_sem_init (initial_count lim : Z) : k_sem :=
  {| count := initial_count; limit := lim |}.

(** Modelled from the spec: asserting a signal that is already asserted
    changes nothing. *)
Definition k_sem_give (sem : k_sem) : k_sem :=
  if count sem <? limit sem
  then {| count := count sem + 1; limit := limit sem |}
  else sem.

(** Modelled from the spec: [k_sem_take(sem, K_NO_WAIT)] consumes the signal
    when it is asserted and returns at once otherwise. *)
Definition k_sem_take_no_wait (sem : k_sem) : k_sem :=
  if 0 <? count sem
  then {| count := count sem - 1; limit := limit sem |}
  else sem.

(** Modelled from the spec: [k_sem_take(sem, K_FOREVER)] consumes the signal
    when it is asserted; otherwise the caller blocks ([None]). *)
Definition k_sem_take_forever (sem : k_sem) : option k_sem :=
  if 0 <? count sem
  then Some {| count := count sem - 1; limit := limit sem |}
  else None.

Definition asserted (sem : k_sem) : bool := 0 <? count sem.

(** ** The event object *)

Record struct_eventfd : Type := {
  read_sem : k_sem;
  write_sem : k_sem;
  cnt : Z;
  flags : Z
}.

Definition set_read_sem (efd : struct_eventfd) (s : k_sem) : struct_eventfd :=
  {| read_sem := s; write_sem := write_sem efd; cnt := cnt efd; flags := flags efd |}.

Definition set_write_sem (efd : struct_eventfd) (s : k_sem) : struct_eventfd :=
  {| read_sem := read_sem efd; write_sem := s; cnt := cnt efd; flags := flags efd |}.

Definition set_cnt (efd : struct_eventfd) (c : Z) : struct_eventfd :=
  {| read_sem := read_sem efd; write_sem := write_sem efd; cnt := c; flags := flags efd |}.

Definition set_flags (efd : struct_eventfd) (f : Z) : struct_eventfd :=
  {| read_sem := read_sem efd; write_sem := write_sem efd; cnt := cnt efd; flags := f |}.

(** A slot of the static array [efds] before its first use. *)
Definition efd_zero : struct_eventfd :=
  {| read_sem := {| count := 0; limit := 0 |};
     write_sem := {| count := 0; limit := 0 |};
     cnt := 0;
     flags := 0 |}.

(** ** Polling structures *)

Record zsock_pollfd : Type := { fd : Z; events : Z; revents : Z }.

Definition set_revents (p : zsock_pollfd) (r : Z) : zsock_pollfd :=
  {| fd := fd p; events := events p; revents := r |}.

(** [obj] is the slot of [efds] whose [read_sem] the event observes. *)
Record k_poll_event : Type := {
  obj : option nat;
  type : Z;
  mode : Z;
  state : Z
}.

(** The memory behind the pointer arguments of the two polling requests:
    the [zsock_pollfd], the array of poll events and the cursor [*pev]
    (an index into the array). *)
Record poll_mem : Type := {
  pfd : zsock_pollfd;
  pevs : list k_poll_event;
  pev : nat
}.

Fixpoint store_nth {A : Type} (l : list A) (n : nat) (x : A) : option (list A) :=
  match l, n with
  | [], _ => None
  | _ :: t, O => Some (x :: t)
  | h :: t, S n' => option_map (cons h) (store_nth t n' x)
  end.

(** A store through the pointer [&efds[i]]. *)
Fixpoint update_nth {A : Type} (l : list A) (n : nat) (x : A) : list A :=
  match l, n with
  | [], _ => []
  | _ :: t, O => x :: t
  | h :: t, S n' => h :: update_nth t n' x
  end.

(** The request of an ioctl call together with its variadic arguments. *)
Inductive ioctl_request : Type :=
| F_GETFL
| F_SETFL (new_flags : Z)
| ZFD_IOCTL_CLOSE
| ZFD_IOCTL_POLL_PREPARE (m : poll_mem) (pev_end : nat)
| ZFD_IOCTL_POLL_UPDATE (m : poll_mem)
| IOCTL_UNKNOWN (request : Z).

(** One instance of the constants that the missing headers define, used to
    run the model: 0x1, 0x2 and O_NONBLOCK (0x4000) for the three flags, 1
    and 4 for the two poll events, 0 for the state of a poll event that is
    not ready and 2 for one whose semaphore became available. *)
Module Zephyr.
Definition EFD_IN_USE : Z := 1.
Definition EFD_SEMAPHORE : Z := 2.
Definition EFD_NONBLOCK : Z := 16384.
Definition ZSOCK_POLLIN : Z := 1.
Definition ZSOCK_POLLOUT : Z := 4.
Definition K_POLL_TYPE_SEM_AVAILABLE : Z := 2.
Definition K_POLL_MODE_NOTIFY_ONLY : Z := 0.
Definition K_POLL_STATE_NOT_READY : Z := 0.
Definition K_POLL_STATE_SEM_AVAILABLE : Z := 2.
End Zephyr.

(** What the inner [do { .. } while (0)] under [cnt_mtx] decided. *)
Inductive locked_exit : Type :=
| ExitError (result : errno_t)
| ExitRepeat
| ExitDone.

Section Eventfd.

(** The constants of [posix/sys/eventfd.h], [net/socket.h] and [kernel.h],
    which are not among the sources, are parameters. *)
Variables EFD_IN_USE EFD_SEMAPHORE EFD_NONBLOCK : Z.
Variables ZSOCK_POLLIN ZSOCK_POLLOUT : Z.
Variables K_POLL_TYPE_SEM_AVAILABLE K_POLL_MODE_NOTIFY_ONLY K_POLL_STATE_NOT_READY : Z.

(** Modelled from the spec: [EFD_FLAGS_SET] comes from the missing header
    [posix/sys/eventfd.h]; the recognized mode-flag set is made of the
    semaphore-mode and the non-blocking flag. *)
Definition EFD_FLAGS_SET : Z := Z.lor EFD_SEMAPHORE EFD_NONBLOCK.

(** *** eventfd_poll_prepare *)

Definition eventfd_poll_prepare (self : nat) (m : poll_mem) (pev_end : nat)
  : option (outcome * poll_mem) :=
  if negb (Z.land (events (pfd m)) ZSOCK_POLLIN =? 0) then
    if Nat.eqb (pev m) pev_end then Some (Failed ENOMEM, m)
    else
      match store_nth (pevs m) (pev m)
              {| obj := Some self;
                 type := K_POLL_TYPE_SEM_AVAILABLE;
                 mode := K_POLL_MODE_NOTIFY_ONLY;
                 state := K_POLL_STATE_NOT_READY |} with
      | Some pevs' =>
          Some (Returned 0, {| pfd := pfd m; pevs := pevs'; pev := S (pev m) |})
      | None => None
      end
  else Some (Returned 0, m).

(** *** eventfd_poll_update *)

Definition eventfd_poll_update (m : poll_mem) : option (outcome * poll_mem) :=
  let pfd1 :=
    if negb (Z.land (events (pfd m)) ZSOCK_POLLOUT =? 0)
    then set_revents (pfd m) (Z.lor (revents (pfd m)) ZSOCK_POLLOUT)
    else pfd m in
  if negb (Z.land (events pfd1) ZSOCK_POLLIN =? 0) then
    match nth_error (pevs m) (pev m) with
    | Some ev =>
        let pfd2 :=
          if negb (state ev =? K_POLL_STATE_NOT_READY)
          then set_revents pfd1 (Z.lor (revents pfd1) ZSOCK_POLLIN)
          else pfd1 in
        Some (Returned 0, {| pfd := pfd2; pevs := pevs m; pev := S (pev m) |})
    | None => None
    end
  else Some (Returned 0, {| pfd := pfd1; pevs := pevs m; pev := pev m |}).

(** *** eventfd_read_op *)

(** The body of the inner loop, run with [cnt_mtx] held.  [count] is the
    local variable of that name (unchanged when the body breaks early). *)
Definition eventfd_read_locked (nonblock : bool) (count : Z) (efd : struct_eventfd)
  : locked_exit * Z * struct_eventfd :=
  if nonblock && (cnt efd =? 0) then (ExitError EAGAIN, count, efd)
  else if cnt efd =? 0 then (ExitRepeat, count, efd)
  else
    let count := if negb (Z.land (flags efd) EFD_SEMAPHORE =? 0) then 1 else cnt efd in
    let efd1 := set_cnt efd (u64 (cnt efd - count)) in
    let efd2 :=
      if negb (cnt efd1 =? 0)
      then set_read_sem efd1 (k_sem_give (read_sem efd1))
      else efd1 in
    (ExitDone, count, efd2).

(** The outer [do { .. } while (repeat)].  The result is the value of
    [result] ([None] for 0) and of [count] when the loop is left, or
    [Suspended]; [None] when the fuel is used up. *)
Fixpoint eventfd_read_loop (fuel : nat) (nonblock : bool) (count : Z)
  (efd : struct_eventfd) : option (outcome * Z * struct_eventfd) :=
  match fuel with
  | O => None
  | S fuel' =>
      match eventfd_read_locked nonblock count efd with
      | (ExitRepeat, count1, efd1) =>
          match k_sem_take_forever (read_sem efd1) with
          | Some s => eventfd_read_loop fuel' nonblock count1 (set_read_sem efd1 s)
          | None => Some (Suspended, count1, efd1)
          end
      | (ExitError e, count1, efd1) => Some (Failed e, count1, efd1)
      | (ExitDone, count1, efd1) => Some (Returned 0, count1, efd1)
      end
  end.

(** [buf] is the 8-byte object behind the pointer [buf]; the result carries
    its content after the call. *)
Definition eventfd_read_op (fuel : nat) (efd : struct_eventfd) (buf : Z) (sz : Z)
  : option (outcome * Z * struct_eventfd) :=
  let nonblock := negb (Z.land (flags efd) EFD_NONBLOCK =? 0) in
  if sz <? sizeof_eventfd_t then Some (Failed EINVAL, buf, efd)
  else
    let efd0 := set_read_sem efd (k_sem_take_no_wait (read_sem efd)) in
    match eventfd_read_loop fuel nonblock 0 efd0 with
    | None => None
    | Some (Suspended, _, efd1) => Some (Suspended, buf, efd1)
    | Some (Failed e, _, efd1) => Some (Failed e, buf, efd1)
    | Some (Returned _, count, efd1) =>
        Some (Returned sizeof_eventfd_t, count,
              set_write_sem efd1 (k_sem_give (write_sem efd1)))
    end.

(** *** eventfd_write_op *)

Definition eventfd_write_locked (nonblock : bool) (count : Z) (efd : struct_eventfd)
  : locked_exit * struct_eventfd :=
  let overflow := UINT64_MAX - count <=? cnt efd in
  if nonblock && overflow then (ExitError EAGAIN, efd)
  else if overflow then (ExitRepeat, efd)
  else (ExitDone, set_cnt efd (u64 (cnt efd + count))).

Fixpoint eventfd_write_loop (fuel : nat) (nonblock : bool) (count : Z)
  (efd : struct_eventfd) : option (outcome * struct_eventfd) :=
  match fuel with
  | O => None
  | S fuel' =>
      match eventfd_write_locked nonblock count efd with
      | (ExitRepeat, efd1) =>
          match k_sem_take_forever (write_sem efd1) with
          | Some s => eventfd_write_loop fuel' nonblock count (set_write_sem efd1 s)
          | None => Some (Suspended, efd1)
          end
      | (ExitError e, efd1) =>
          Some (Failed e, set_read_sem efd1 (k_sem_give (read_sem efd1)))
      | (ExitDone, efd1) =>
          Some (Returned 0, set_read_sem efd1 (k_sem_give (read_sem efd1)))
      end
  end.

(** [buf] is the 8-byte value behind the pointer [buf]. *)
Definition eventfd_write_op (fuel : nat) (efd : struct_eventfd) (buf : Z) (sz : Z)
  : option (outcome * struct_eventfd) :=
  let nonblock := negb (Z.land (flags efd) EFD_NONBLOCK =? 0) in
  if sz <? sizeof_eventfd_t then Some (Failed EINVAL, efd)
  else
    let count := buf in
    if count =? UINT64_MAX then Some (Failed EINVAL, efd)
    else if count =? 0 then Some (Returned sizeof_eventfd_t, efd)
    else
      match eventfd_write_loop fuel nonblock count efd with
      | None => None
      | Some (Returned _, efd1) => Some (Returned sizeof_eventfd_t, efd1)
      | Some (o, efd1) => Some (o, efd1)
      end.

(** *** eventfd_ioctl_op *)

Definition eventfd_ioctl_op (self : nat) (efd : struct_eventfd) (request : ioctl_request)
  : option (outcome * struct_eventfd * option poll_mem) :=
  match request with
  | F_GETFL => Some (Returned (Z.land (flags efd) EFD_FLAGS_SET), efd, None)
  | F_SETFL new_flags =>
      if negb (Z.land new_flags (Z.lnot EFD_FLAGS_SET) =? 0)
      then Some (Failed EINVAL, efd, None)
      else Some (Returned 0, set_flags efd new_flags, None)
  | ZFD_IOCTL_CLOSE => Some (Returned 0, set_flags efd 0, None)
  | ZFD_IOCTL_POLL_PREPARE m pev_end =>
      match eventfd_poll_prepare self m pev_end with
      | Some (o, m') => Some (o, efd, Some m')
      | None => None
      end
  | ZFD_IOCTL_POLL_UPDATE m =>
      match eventfd_poll_update m with
      | Some (o, m') => Some (o, efd, Some m')
      | None => None
      end
  | IOCTL_UNKNOWN _ => Some (Failed EOPNOTSUPP, efd, None)
  end.

(** *** eventfd *)

(** The scan [for (i = 0; i < ARRAY_SIZE(efds); ++i)] for a slot whose
    [EFD_IN_USE] bit is clear, started at index [i]. *)
Fixpoint find_free (l : list struct_eventfd) (i : nat) : option nat :=
  match l with
  | [] => None
  | e :: rest =>
      if Z.land (flags e) EFD_IN_USE =? 0 then Some i else find_free rest (S i)
  end.

(** The stores of [eventfd] into the slot it claims: [flags], [cnt] and the
    two [k_sem_init] calls, [seminit] being [efd->cnt != 0]. *)
Definition efd_created (initval flags_arg : Z) : struct_eventfd :=
  let seminit := if negb (initval =? 0) then 1 else 0 in
  {| read_sem := k_sem_init seminit 1;
     write_sem := k_sem_init 0 1;
     cnt := initval;
     flags := Z.lor EFD_IN_USE flags_arg |}.

(** [reserved] is what [z_reserve_fd()] returns.  The result carries the
    returned descriptor, the slot that [z_finalize_fd] binds to it and the
    array [efds] after the call. *)
Definition eventfd (efds : list struct_eventfd) (reserved : Z) (initval : Z)
  (flags_arg : Z) : outcome * option nat * list struct_eventfd :=
  let initval := unsigned_int initval in
  if negb (Z.land flags_arg (Z.lnot EFD_FLAGS_SET) =? 0)
  then (Failed EINVAL, None, efds)
  else
    match find_free efds 0 with
    | None => (Failed ENOMEM, None, efds)
    | Some i =>
        if reserved <? 0 then (Returned reserved, None, efds)
        else
          (Returned reserved, Some i, update_nth efds i (efd_created initval flags_arg))
    end.

(** *** Sequences of calls on one event object *)

(** The states an event object goes through: the state [eventfd] gives the
    slot it claims, and from there the state after any call of the three
    operations of [eventfd_fd_vtable] (also one that fails or leaves its
    caller suspended).  A write buffer holds a value of type [eventfd_t]. *)
Inductive reachable : struct_eventfd -> Prop :=
| reach_create efds reserved initval flags_arg r i efds' efd :
    eventfd efds reserved initval flags_arg = (Returned r, Some i, efds') ->
    nth_error efds' i = Some efd ->
    reachable efd
| reach_read fuel efd buf sz o buf' efd' :
    reachable efd ->
    eventfd_read_op fuel efd buf sz = Some (o, buf', efd') ->
    reachable efd'
| reach_write fuel efd buf sz o efd' :
    reachable efd ->
    0 <= buf <= UINT64_MAX ->
    eventfd_write_op fuel efd buf sz = Some (o, efd') ->
    reachable efd'
| reach_ioctl self efd request o efd' m :
    reachable efd ->
    eventfd_ioctl_op self efd request = Some (o, efd', m) ->
    reachable efd'.

(** A caller that writes the values of a list one after the other, each
    with its own call of [eventfd_write_op], for as long as the calls
    return normally. *)
Fixpoint write_each (fuel : nat) (efd : struct_eventfd) (vs : list Z) (sz : Z)
  : option struct_eventfd :=
  match vs with
  | [] => Some efd
  | v :: rest =>
      match eventfd_write_op fuel efd v sz with
      | Some (Returned _, efd') => write_each fuel efd' rest sz
      | _ => None
      end
  end.

(** A caller that reads [n] times in a row, each time with its own call of
    [eventfd_read_op] into the same buffer, for as long as the calls return
    normally; the result lists what the reads stored in the buffer. *)
Fixpoint read_each (fuel : nat) (efd : struct_eventfd) (buf : Z) (n : nat) (sz : Z)
  : option (list Z * struct_eventfd) :=
  match n with
  | O => Some ([], efd)
  | S n' =>
      match eventfd_read_op fuel efd buf sz with
      | Some (Returned _, buf', efd') =>
          match read_each fuel efd' buf' n' sz with
          | Some (vals, efd'') => Some (buf' :: vals, efd'')
          | None => None
          end
      | _ => None
      end
  end.

(** A semaphore used as a binary signal: limit 1 and a count of 0 or 1. *)
Definition binary_sem (sem : k_sem) : Prop :=
  limit sem = 1 /\ 0 <= count sem <= 1.

(** [read_sem] holds a unit exactly when the counter is not zero. *)
Definition read_sem_tracks_cnt (efd : struct_eventfd) : Prop :=
  read_sem efd = k_sem_init (if cnt efd =? 0 then 0 else 1) 1.

(** ** Properties *)

(** *** Bit masks *)

Lemma land_subset_disjoint (a b c : Z) :
  Z.land a (Z.lnot b) = 0 -> Z.land c b = 0 -> Z.land a c = 0.
Proof.
  intros Hab Hcb.
  rewrite <- Z.ldiff_land in Hab.
  assert (Ha : a = Z.land a b).
  { rewrite <- (Z.lor_ldiff_and a b) at 1. now rewrite Hab, Z.lor_0_l. }
  rewrite Ha, <- Z.land_assoc, (Z.land_comm b c), Hcb.
  apply Z.land_0_r.
Qed.

(** *** Semaphores *)

Lemma take_forever_count (s s' : k_sem) :
  k_sem_take_forever s = Some s' -> 0 < count s /\ count s' = count s - 1.
Proof.
  unfold k_sem_take_forever.
  destruct (0 <? count s) eqn:E; [| discriminate].
  intros [= <-]. apply Z.ltb_lt in E. simpl. lia.
Qed.

(** *** The critical sections *)

Lemma read_locked_flags nonblock count0 efd x c efd' :
  eventfd_read_locked nonblock count0 efd = (x, c, efd') ->
  flags efd' = flags efd.
Proof.
  unfold eventfd_read_locked.
  destruct (nonblock && (cnt efd =? 0)); [now intros [= _ _ <-] |].
  destruct (cnt efd =? 0); [now intros [= _ _ <-] |].
  cbv zeta. intros [= _ _ <-].
  now destruct (negb _).
Qed.

Lemma read_locked_not_done nonblock count0 efd x c efd' :
  eventfd_read_locked nonblock count0 efd = (x, c, efd') ->
  x <> ExitDone ->
  efd' = efd /\ c = count0 /\ cnt efd = 0.
Proof.
  unfold eventfd_read_locked.
  destruct (cnt efd =? 0) eqn:E.
  - apply Z.eqb_eq in E.
    destruct nonblock; cbn [andb]; intros [= <- <- <-]; auto.
  - rewrite andb_false_r. intros [= <- _ _] H. now elim H.
Qed.

Lemma write_locked_flags nonblock count0 efd x efd' :
  eventfd_write_locked nonblock count0 efd = (x, efd') ->
  flags efd' = flags efd.
Proof.
  unfold eventfd_write_locked.
  destruct (nonblock && _); [now intros [= _ <-] |].
  destruct (_ <=? _); now intros [= _ <-].
Qed.

Lemma write_locked_not_done nonblock count0 efd x efd' :
  eventfd_write_locked nonblock count0 efd = (x, efd') ->
  x <> ExitDone ->
  efd' = efd /\ UINT64_MAX - count0 <= cnt efd.
Proof.
  unfold eventfd_write_locked.
  destruct (UINT64_MAX - count0 <=? cnt efd) eqn:E.
  - apply Z.leb_le in E.
    destruct nonblock; cbn [andb]; intros [= <- <-]; auto.
  - rewrite andb_false_r. intros [= <- _] H. now elim H.
Qed.

(** *** The retry loops *)

(** A loop that is not left with [result == 0] changed neither the counter
    nor the flags. *)
Lemma read_loop_frame fuel : forall nonblock count0 efd o c efd',
  eventfd_read_loop fuel nonblock count0 efd = Some (o, c, efd') ->
  flags efd' = flags efd /\
  ((forall r, o <> Returned r) -> cnt efd' = cnt efd) /\
  (forall e, o = Failed e -> e = EAGAIN).
Proof.
  induction fuel as [| fuel IH]; intros nonblock count0 efd o c efd';
    cbn [eventfd_read_loop]; [discriminate |].
  destruct (eventfd_read_locked nonblock count0 efd) as [[x c1] efd1] eqn:L.
  pose proof (read_locked_flags _ _ _ _ _ _ L) as Hf.
  destruct x.
  - intros [= <- <- <-].
    destruct (read_locked_not_done _ _ _ _ _ _ L) as (-> & _ & _); [discriminate |].
    repeat split; auto.
    intros e [= <-]. revert L. unfold eventfd_read_locked.
    destruct (nonblock && _); [now intros [= <-] |].
    destruct (cnt efd =? 0); discriminate.
  - destruct (read_locked_not_done _ _ _ _ _ _ L) as (-> & -> & _); [discriminate |].
    destruct (k_sem_take_forever (read_sem efd)) as [s |].
    + intros H. apply IH in H. exact H.
    + intros [= <- <- <-]. repeat split; auto. discriminate.
  - intros [= <- <- <-]. repeat split; auto.
    + intros H. now elim (H 0).
    + discriminate.
Qed.

Lemma write_loop_frame fuel : forall nonblock count0 efd o efd',
  eventfd_write_loop fuel nonblock count0 efd = Some (o, efd') ->
  flags efd' = flags efd /\
  ((forall r, o <> Returned r) -> cnt efd' = cnt efd) /\
  (forall e, o = Failed e -> e = EAGAIN).
Proof.
  induction fuel as [| fuel IH]; intros nonblock count0 efd o efd';
    cbn [eventfd_write_loop]; [discriminate |].
  destruct (eventfd_write_locked nonblock count0 efd) as [x efd1] eqn:L.
  pose proof (write_locked_flags _ _ _ _ _ L) as Hf.
  destruct x.
  - intros [= <- <-].
    destruct (write_locked_not_done _ _ _ _ _ L) as (-> & _); [discriminate |].
    repeat split; auto.
    intros e [= <-]. revert L. unfold eventfd_write_locked.
    destruct (nonblock && _); [now intros [= <-] |].
    destruct (_ <=? _); discriminate.
  - destruct (write_locked_not_done _ _ _ _ _ L) as (-> & _); [discriminate |].
    destruct (k_sem_take_forever (write_sem efd)) as [s |].
    + intros H. apply IH in H. exact H.
    + intros [= <- <-]. repeat split; auto. discriminate.
  - intros [= <- <-]. repeat split; auto.
    + intros H. now elim (H 0).
    + discriminate.
Qed.

(** *** Whole calls *)

Ltac frame_cases :=
  split; [| split; [| split]];
  [ try reflexivity; try assumption
  | intros Hnr; try (now elim (Hnr sizeof_eventfd_t)); auto
  | intros r0 Hr0; try discriminate Hr0; try (now injection Hr0 as <-)
  | intros e0 He0; try discriminate He0 ].

Lemma read_op_frame fuel efd buf sz o buf' efd' :
  eventfd_read_op fuel efd buf sz = Some (o, buf', efd') ->
  flags efd' = flags efd /\
  ((forall r, o <> Returned r) -> cnt efd' = cnt efd /\ buf' = buf) /\
  (forall r, o = Returned r -> r = sizeof_eventfd_t) /\
  (forall e, o = Failed e -> e = EINVAL \/ e = EAGAIN).
Proof.
  unfold eventfd_read_op.
  destruct (sz <? sizeof_eventfd_t).
  - intros [= <- <- <-]. frame_cases.
    injection He0 as <-. now left.
  - destruct (eventfd_read_loop _ _ _ _) as [[[o1 c1] efd1] |] eqn:L; [| discriminate].
    destruct (read_loop_frame _ _ _ _ _ _ _ L) as (Hf & Hc & He).
    destruct o1; intros [= <- <- <-]; cbn [flags cnt set_write_sem]; frame_cases;
      try (split; [now apply Hc | reflexivity]).
    right. now apply He.
Qed.

Lemma write_op_frame fuel efd buf sz o efd' :
  eventfd_write_op fuel efd buf sz = Some (o, efd') ->
  flags efd' = flags efd /\
  ((forall r, o <> Returned r) -> cnt efd' = cnt efd) /\
  (forall r, o = Returned r -> r = sizeof_eventfd_t) /\
  (forall e, o = Failed e -> e = EINVAL \/ e = EAGAIN).
Proof.
  unfold eventfd_write_op.
  destruct (sz <? sizeof_eventfd_t).
  { intros [= <- <-]. frame_cases. injection He0 as <-. now left. }
  cbv zeta.
  destruct (buf =? UINT64_MAX).
  { intros [= <- <-]. frame_cases. injection He0 as <-. now left. }
  destruct (buf =? 0).
  { intros [= <- <-]. frame_cases. }
  destruct (eventfd_write_loop _ _ _ _) as [[o1 efd1] |] eqn:L; [| discriminate].
  destruct (write_loop_frame _ _ _ _ _ _ L) as (Hf & Hc & He).
  destruct o1; intros [= <- <-]; frame_cases.
  right. now apply He.
Qed.

(** C7: a write of the value 0 from a buffer of at least 8 bytes returns 8
    at once, whatever the fuel, and leaves the whole object as it was: the
    counter, the flags and both semaphores (so [read_sem] is not given). *)
Theorem write_zero_is_noop (fuel : nat) (efd : struct_eventfd) (sz : Z) :
  sizeof_eventfd_t <= sz ->
  eventfd_write_op fuel efd 0 sz = Some (Returned sizeof_eventfd_t, efd).
Proof.
  intros Hsz. unfold eventfd_write_op.
  destruct (sz <? sizeof_eventfd_t) eqn:E.
  - apply Z.ltb_lt in E. lia.
  - reflexivity.
Qed.

(** C8: a read or a write with a size below 8 fails with EINVAL, a write of
    the value [UINT64_MAX] fails with EINVAL, and a read or a write that
    returns normally returns 8. *)
Theorem size_and_sentinel_checks (fuel : nat) (efd : struct_eventfd) (buf sz : Z) :
  (sz < sizeof_eventfd_t ->
   eventfd_read_op fuel efd buf sz = Some (Failed EINVAL, buf, efd)) /\
  (sz < sizeof_eventfd_t ->
   eventfd_write_op fuel efd buf sz = Some (Failed EINVAL, efd)) /\
  eventfd_write_op fuel efd UINT64_MAX sz = Some (Failed EINVAL, efd) /\
  (forall r buf' efd',
     eventfd_read_op fuel efd buf sz = Some (Returned r, buf', efd') -> r = 8) /\
  (forall r efd',
     eventfd_write_op fuel efd buf sz = Some (Returned r, efd') -> r = 8).
Proof.
  repeat split.
  - intros H. unfold eventfd_read_op.
    apply Z.ltb_lt in H. now rewrite H.
  - intros H. unfold eventfd_write_op.
    apply Z.ltb_lt in H. now rewrite H.
  - unfold eventfd_write_op.
    destruct (sz <? sizeof_eventfd_t); [reflexivity |].
    cbv zeta. now rewrite Z.eqb_refl.
  - intros r buf' efd' H.
    apply read_op_frame in H. destruct H as (_ & _ & Hr & _). now apply Hr.
  - intros r efd' H.
    apply write_op_frame in H. destruct H as (_ & _ & Hr & _). now apply Hr.
Qed.

(** C10: a read or a write that fails does so with EINVAL or EAGAIN and
    leaves the counter and the flags of the object (and, for a read, the
    caller's buffer) as they were before the call. *)
Theorem failure_keeps_counter_and_flags (fuel : nat) (efd : struct_eventfd) (buf sz : Z) :
  (forall e buf' efd',
     eventfd_read_op fuel efd buf sz = Some (Failed e, buf', efd') ->
     (e = EINVAL \/ e = EAGAIN) /\
     cnt efd' = cnt efd /\ flags efd' = flags efd /\ buf' = buf) /\
  (forall e efd',
     eventfd_write_op fuel efd buf sz = Some (Failed e, efd') ->
     (e = EINVAL \/ e = EAGAIN) /\
     cnt efd' = cnt efd /\ flags efd' = flags efd).
Proof.
  split.
  - intros e buf' efd' H.
    apply read_op_frame in H. destruct H as (Hf & Hc & _ & He).
    destruct Hc as [Hc Hb]; [discriminate |]. auto.
  - intros e efd' H.
    apply write_op_frame in H. destruct H as (Hf & Hc & _ & He).
    split; [now apply He |]. split; [apply Hc; discriminate | exact Hf].
Qed.

(** *** Writes that go through the loop *)

Lemma u64_small (z : Z) : 0 <= z <= UINT64_MAX -> u64 z = z.
Proof.
  unfold u64, UINT64_MAX. intros H. apply Z.mod_small. lia.
Qed.

Lemma write_op_fits (fuel : nat) (efd : struct_eventfd) (v sz : Z) :
  sizeof_eventfd_t <= sz -> 0 < v < UINT64_MAX -> 0 <= cnt efd ->
  cnt efd < UINT64_MAX - v ->
  eventfd_write_op (S fuel) efd v sz =
    Some (Returned sizeof_eventfd_t,
          set_read_sem (set_cnt efd (cnt efd + v)) (k_sem_give (read_sem efd))).
Proof.
  intros Hsz Hv Hc Hfit. unfold eventfd_write_op.
  destruct (sz <? sizeof_eventfd_t) eqn:E1; [apply Z.ltb_lt in E1; lia |].
  cbv zeta.
  destruct (v =? UINT64_MAX) eqn:E2; [apply Z.eqb_eq in E2; lia |].
  destruct (v =? 0) eqn:E3; [apply Z.eqb_eq in E3; lia |].
  cbn [eventfd_write_loop]. unfold eventfd_write_locked.
  destruct (UINT64_MAX - v <=? cnt efd) eqn:E4; [apply Z.leb_le in E4; lia |].
  rewrite andb_false_r, u64_small by lia.
  reflexivity.
Qed.

Lemma write_op_overflow_nonblock (fuel : nat) (efd : struct_eventfd) (v sz : Z) :
  sizeof_eventfd_t <= sz -> 0 < v < UINT64_MAX ->
  Z.land (flags efd) EFD_NONBLOCK <> 0 ->
  UINT64_MAX - v <= cnt efd ->
  eventfd_write_op (S fuel) efd v sz =
    Some (Failed EAGAIN, set_read_sem efd (k_sem_give (read_sem efd))).
Proof.
  intros Hsz Hv Hnb Hover. unfold eventfd_write_op.
  destruct (sz <? sizeof_eventfd_t) eqn:E1; [apply Z.ltb_lt in E1; lia |].
  cbv zeta.
  destruct (v =? UINT64_MAX) eqn:E2; [apply Z.eqb_eq in E2; lia |].
  destruct (v =? 0) eqn:E3; [apply Z.eqb_eq in E3; lia |].
  cbn [eventfd_write_loop]. unfold eventfd_write_locked.
  apply Z.eqb_neq in Hnb. apply Z.leb_le in Hover.
  rewrite Hnb, Hover. reflexivity.
Qed.

(** C4: on a non-blocking object whose counter is [c], a write of [v] with
    [0 < v < UINT64_MAX] fails with EAGAIN when [UINT64_MAX - v <= c] (the
    counter and the flags stay as they are) and returns 8 with the counter
    at [c + v] otherwise; so it fails with EAGAIN exactly when
    [UINT64_MAX - v <= c].  Either way the call gives [read_sem] and leaves
    [write_sem] alone. *)
Theorem nonblocking_write_overflow (fuel : nat) (efd : struct_eventfd) (v sz : Z) :
  Z.land (flags efd) EFD_NONBLOCK <> 0 ->
  0 <= cnt efd <= UINT64_MAX ->
  0 < v < UINT64_MAX ->
  sizeof_eventfd_t <= sz ->
  (UINT64_MAX - v <= cnt efd ->
   exists efd',
     eventfd_write_op (S fuel) efd v sz = Some (Failed EAGAIN, efd') /\
     efd' = set_read_sem efd (k_sem_give (read_sem efd)) /\
     cnt efd' = cnt efd /\
     flags efd' = flags efd /\
     read_sem efd' = k_sem_give (read_sem efd) /\
     write_sem efd' = write_sem efd) /\
  (cnt efd < UINT64_MAX - v ->
   exists efd',
     eventfd_write_op (S fuel) efd v sz = Some (Returned 8, efd') /\
     efd' = set_read_sem (set_cnt efd (cnt efd + v)) (k_sem_give (read_sem efd)) /\
     cnt efd' = cnt efd + v /\
     cnt efd' < UINT64_MAX /\
     flags efd' = flags efd /\
     read_sem efd' = k_sem_give (read_sem efd) /\
     write_sem efd' = write_sem efd) /\
  ((exists efd', eventfd_write_op (S fuel) efd v sz = Some (Failed EAGAIN, efd'))
   <-> UINT64_MAX - v <= cnt efd).
Proof.
  intros Hnb Hc Hv Hsz.
  assert (Hover : UINT64_MAX - v <= cnt efd ->
                  eventfd_write_op (S fuel) efd v sz =
                    Some (Failed EAGAIN, set_read_sem efd (k_sem_give (read_sem efd)))).
  { intros H. now apply write_op_overflow_nonblock. }
  assert (Hfit : cnt efd < UINT64_MAX - v ->
                 eventfd_write_op (S fuel) efd v sz =
                   Some (Returned 8,
                         set_read_sem (set_cnt efd (cnt efd + v))
                           (k_sem_give (read_sem efd)))).
  { intros H. apply write_op_fits; auto; lia. }
  split; [| split].
  - intros H. eexists. split; [now apply Hover |].
    cbn [cnt flags read_sem write_sem set_read_sem]. auto.
  - intros H. eexists. split; [now apply Hfit |].
    cbn [cnt flags read_sem write_sem set_read_sem set_cnt].
    repeat (split; [reflexivity |]).
    split; [lia |]. auto.
  - split.
    + intros [efd' H].
      destruct (Z.le_gt_cases (UINT64_MAX - v) (cnt efd)) as [Hle | Hgt]; [exact Hle |].
      rewrite Hfit in H by lia. discriminate.
    + intros H. eexists. now apply Hover.
Qed.

(** *** Reads that go through the loop *)

Lemma read_op_nonzero (fuel : nat) (efd : struct_eventfd) (buf sz : Z) :
  sizeof_eventfd_t <= sz -> cnt efd <> 0 ->
  exists efd',
    eventfd_read_op (S fuel) efd buf sz =
      Some (Returned sizeof_eventfd_t,
            (if negb (Z.land (flags efd) EFD_SEMAPHORE =? 0) then 1 else cnt efd),
            efd') /\
    cnt efd' =
      u64 (cnt efd - (if negb (Z.land (flags efd) EFD_SEMAPHORE =? 0) then 1 else cnt efd)) /\
    flags efd' = flags efd.
Proof.
  intros Hsz Hc. unfold eventfd_read_op.
  destruct (sz <? sizeof_eventfd_t) eqn:E1; [apply Z.ltb_lt in E1; lia |].
  cbv zeta. cbn [eventfd_read_loop]. unfold eventfd_read_locked.
  cbn [cnt flags set_read_sem].
  apply Z.eqb_neq in Hc. rewrite Hc, andb_false_r.
  cbv zeta. eexists. split; [reflexivity |].
  cbn [cnt flags set_write_sem].
  now destruct (negb (cnt (set_cnt _ _) =? 0)).
Qed.

Lemma read_op_zero_nonblock (fuel : nat) (efd : struct_eventfd) (buf sz : Z) :
  sizeof_eventfd_t <= sz -> cnt efd = 0 ->
  Z.land (flags efd) EFD_NONBLOCK <> 0 ->
  eventfd_read_op (S fuel) efd buf sz =
    Some (Failed EAGAIN, buf, set_read_sem efd (k_sem_take_no_wait (read_sem efd))).
Proof.
  intros Hsz Hc Hnb. unfold eventfd_read_op.
  destruct (sz <? sizeof_eventfd_t) eqn:E1; [apply Z.ltb_lt in E1; lia |].
  cbv zeta. cbn [eventfd_read_loop]. unfold eventfd_read_locked.
  cbn [cnt flags set_read_sem].
  apply Z.eqb_neq in Hnb. rewrite Hnb, Hc. reflexivity.
Qed.

(** *** Creation *)

Lemma find_free_spec (x : struct_eventfd) : forall l k i,
  find_free l k = Some i ->
  (k <= i)%nat /\
  nth_error (update_nth l (i - k) x) (i - k) = Some x /\
  exists e, nth_error l (i - k) = Some e /\ Z.land (flags e) EFD_IN_USE = 0.
Proof.
  induction l as [| e l IH]; intros k i; cbn [find_free]; [discriminate |].
  destruct (Z.land (flags e) EFD_IN_USE =? 0) eqn:E.
  - intros [= <-]. rewrite Nat.sub_diag. cbn.
    apply Z.eqb_eq in E. eauto.
  - intros H. apply IH in H. destruct H as (Hk & Hn & Hfree).
    replace (i - k)%nat with (S (i - S k)) by lia.
    split; [lia |]. split; [exact Hn | exact Hfree].
Qed.

Lemma eventfd_success efds reserved initval flags_arg r i efds' :
  eventfd efds reserved initval flags_arg = (Returned r, Some i, efds') ->
  r = reserved /\ 0 <= r /\
  Z.land flags_arg (Z.lnot EFD_FLAGS_SET) = 0 /\
  find_free efds 0 = Some i /\
  nth_error efds' i = Some (efd_created (unsigned_int initval) flags_arg).
Proof.
  unfold eventfd. cbv zeta.
  destruct (Z.land flags_arg (Z.lnot EFD_FLAGS_SET) =? 0) eqn:Ef;
    cbn [negb]; [| discriminate].
  destruct (find_free efds 0) as [j |] eqn:Efree; [| discriminate].
  destruct (reserved <? 0) eqn:Er; [discriminate |].
  intros [= <- <- <-].
  apply Z.eqb_eq in Ef. apply Z.ltb_ge in Er.
  destruct (find_free_spec (efd_created (unsigned_int initval) flags_arg) _ _ _ Efree)
    as (_ & Hn & _).
  rewrite Nat.sub_0_r in Hn. auto.
Qed.

Lemma eventfd_succeeds efds reserved initval flags_arg i :
  Z.land flags_arg (Z.lnot EFD_FLAGS_SET) = 0 ->
  find_free efds 0 = Some i ->
  0 <= reserved ->
  eventfd efds reserved initval flags_arg =
    (Returned reserved, Some i,
     update_nth efds i (efd_created (unsigned_int initval) flags_arg)).
Proof.
  intros Hf Hfree Hr. unfold eventfd. cbv zeta.
  apply Z.eqb_eq in Hf. apply Z.ltb_ge in Hr.
  rewrite Hf, Hfree, Hr. reflexivity.
Qed.

Lemma unsigned_int_small (z : Z) : 0 <= z <= UINT_MAX -> unsigned_int z = z.
Proof.
  unfold unsigned_int, UINT_MAX. intros H. apply Z.mod_small. lia.
Qed.

(** C6, as amended: for an initial value that the parameter type
    [unsigned int] can hold, a call of [eventfd] that claims a slot leaves
    in it the requested initial value as counter, [read_sem] asserted if and
    only if that value is not zero, [write_sem] not asserted, and the flags
    [EFD_IN_USE | flags]. *)
Theorem create_initial_state efds reserved initval flags_arg r i efds' :
  0 <= initval <= UINT_MAX ->
  eventfd efds reserved initval flags_arg = (Returned r, Some i, efds') ->
  exists efd,
    nth_error efds' i = Some efd /\
    cnt efd = initval /\
    (asserted (read_sem efd) = true <-> initval <> 0) /\
    asserted (write_sem efd) = false /\
    flags efd = Z.lor EFD_IN_USE flags_arg.
Proof.
  intros Hi H. apply eventfd_success in H.
  destruct H as (_ & _ & _ & _ & Hn).
  rewrite unsigned_int_small in Hn by exact Hi.
  eexists. split; [exact Hn |].
  cbn [efd_created cnt flags read_sem write_sem].
  split; [reflexivity |]. split; [| split; reflexivity].
  unfold asserted, k_sem_init; cbn [count].
  destruct (initval =? 0) eqn:E; cbn [negb].
  - apply Z.eqb_eq in E. split; [discriminate | intros H; now elim H].
  - apply Z.eqb_neq in E. split; [auto | reflexivity].
Qed.

(** *** Semaphore mode *)

Lemma semaphore_read (fuel : nat) (efd : struct_eventfd) (buf sz : Z) :
  Z.land (flags efd) EFD_SEMAPHORE <> 0 ->
  sizeof_eventfd_t <= sz -> 0 < cnt efd <= UINT64_MAX ->
  exists efd',
    eventfd_read_op (S fuel) efd buf sz = Some (Returned 8, 1, efd') /\
    cnt efd' = cnt efd - 1 /\ flags efd' = flags efd.
Proof.
  intros Hmode Hsz Hc.
  destruct (read_op_nonzero fuel efd buf sz Hsz) as (efd' & Hr & Hcnt & Hfl); [lia |].
  apply Z.eqb_neq in Hmode. rewrite Hmode in Hr, Hcnt. cbn [negb] in Hr, Hcnt.
  exists efd'. split; [exact Hr |]. split; [| exact Hfl].
  rewrite Hcnt. apply u64_small. lia.
Qed.

(** Three units posted to an empty object in semaphore mode are handed out
    one per read. *)
Lemma semaphore_three_reads (fuel : nat) (efd : struct_eventfd) (buf sz : Z) :
  Z.land (flags efd) EFD_SEMAPHORE <> 0 ->
  sizeof_eventfd_t <= sz -> cnt efd = 0 ->
  exists e1 e2 e3 e4,
    eventfd_write_op (S fuel) efd 3 sz = Some (Returned 8, e1) /\
    eventfd_read_op (S fuel) e1 buf sz = Some (Returned 8, 1, e2) /\
    eventfd_read_op (S fuel) e2 1 sz = Some (Returned 8, 1, e3) /\
    eventfd_read_op (S fuel) e3 1 sz = Some (Returned 8, 1, e4) /\
    cnt e4 = 0 /\ flags e4 = flags efd.
Proof.
  intros Hmode Hsz Hc.
  pose (e1 := set_read_sem (set_cnt efd (cnt efd + 3)) (k_sem_give (read_sem efd))).
  assert (Hw : eventfd_write_op (S fuel) efd 3 sz = Some (Returned 8, e1)).
  { apply write_op_fits; unfold UINT64_MAX; lia. }
  assert (H1 : cnt e1 = 3 /\ flags e1 = flags efd).
  { subst e1. cbn [cnt flags set_read_sem set_cnt]. split; [lia | reflexivity]. }
  destruct H1 as [Hc1 Hf1].
  destruct (semaphore_read fuel e1 buf sz) as (e2 & Hr1 & Hc2 & Hf2);
    [congruence | exact Hsz | unfold UINT64_MAX; lia |].
  destruct (semaphore_read fuel e2 1 sz) as (e3 & Hr2 & Hc3 & Hf3);
    [congruence | exact Hsz | unfold UINT64_MAX; lia |].
  destruct (semaphore_read fuel e3 1 sz) as (e4 & Hr3 & Hc4 & Hf4);
    [congruence | exact Hsz | unfold UINT64_MAX; lia |].
  exists e1, e2, e3, e4. repeat (split; [assumption |]).
  split; [lia | congruence].
Qed.

(** C3: in semaphore mode, a read of an object whose counter is [c > 0]
    returns 8 with 1 in the buffer and leaves the counter at [c - 1]; on an
    object just created with the initial value 0, after a write of 3 three
    reads in a row each give 1, and with [EFD_NONBLOCK] set a fourth read
    fails with EAGAIN. *)
Theorem semaphore_mode_read_takes_one :
  (forall (fuel : nat) efd buf sz c,
     Z.land (flags efd) EFD_SEMAPHORE <> 0 ->
     sizeof_eventfd_t <= sz ->
     cnt efd = c -> 0 < c <= UINT64_MAX ->
     exists efd',
       eventfd_read_op (S fuel) efd buf sz = Some (Returned 8, 1, efd') /\
       cnt efd' = c - 1 /\ flags efd' = flags efd) /\
  (forall (fuel : nat) efds reserved flags_arg r i efds' buf sz,
     Z.land flags_arg EFD_SEMAPHORE <> 0 ->
     sizeof_eventfd_t <= sz ->
     eventfd efds reserved 0 flags_arg = (Returned r, Some i, efds') ->
     exists efd e1 e2 e3 e4,
       nth_error efds' i = Some efd /\
       eventfd_write_op (S fuel) efd 3 sz = Some (Returned 8, e1) /\
       eventfd_read_op (S fuel) e1 buf sz = Some (Returned 8, 1, e2) /\
       eventfd_read_op (S fuel) e2 1 sz = Some (Returned 8, 1, e3) /\
       eventfd_read_op (S fuel) e3 1 sz = Some (Returned 8, 1, e4) /\
       (Z.land flags_arg EFD_NONBLOCK <> 0 ->
        exists e5, eventfd_read_op (S fuel) e4 1 sz = Some (Failed EAGAIN, 1, e5))).
Proof.
  split.
  - intros fuel efd buf sz c Hmode Hsz <- Hc.
    now apply semaphore_read.
  - intros fuel efds reserved flags_arg r i efds' buf sz Hmode Hsz H.
    apply eventfd_success in H. destruct H as (_ & _ & _ & _ & Hn).
    change (unsigned_int 0) with 0 in Hn.
    set (efd := efd_created 0 flags_arg) in Hn.
    assert (Hsem : Z.land (flags efd) EFD_SEMAPHORE <> 0).
    { subst efd. cbn [efd_created flags].
      rewrite Z.land_lor_distr_l. intros H0.
      apply Z.lor_eq_0_iff in H0. now destruct H0. }
    destruct (semaphore_three_reads fuel efd buf sz Hsem Hsz)
      as (e1 & e2 & e3 & e4 & Hw & Hr1 & Hr2 & Hr3 & Hc4 & Hf4); [reflexivity |].
    exists efd, e1, e2, e3, e4. repeat (split; [assumption |]).
    intros Hnb. eexists. apply read_op_zero_nonblock; auto.
    rewrite Hf4. subst efd. cbn [efd_created flags].
    rewrite Z.land_lor_distr_l. intros H0.
    apply Z.lor_eq_0_iff in H0. now destruct H0.
Qed.

(** *** The counter stays below the sentinel *)

Lemma read_locked_range nonblock count0 efd x c efd' :
  0 <= cnt efd < UINT64_MAX ->
  eventfd_read_locked nonblock count0 efd = (x, c, efd') ->
  0 <= cnt efd' < UINT64_MAX.
Proof.
  intros Hc. unfold eventfd_read_locked.
  destruct (nonblock && (cnt efd =? 0)); [now intros [= _ _ <-] |].
  destruct (cnt efd =? 0) eqn:E; [now intros [= _ _ <-] |].
  apply Z.eqb_neq in E. cbv zeta. intros [= _ _ <-].
  assert (H : 0 <= cnt (set_cnt efd
                (u64 (cnt efd -
                  (if negb (Z.land (flags efd) EFD_SEMAPHORE =? 0) then 1 else cnt efd))))
              < UINT64_MAX).
  { cbn [cnt set_cnt].
    destruct (negb (Z.land (flags efd) EFD_SEMAPHORE =? 0));
      rewrite u64_small; lia. }
  cbn [cnt set_cnt] in *.
  match goal with
  | |- context [if negb (u64 ?a =? 0) then _ else _] =>
      destruct (negb (u64 a =? 0))
  end; exact H.
Qed.

Lemma read_loop_range fuel : forall nonblock count0 efd o c efd',
  0 <= cnt efd < UINT64_MAX ->
  eventfd_read_loop fuel nonblock count0 efd = Some (o, c, efd') ->
  0 <= cnt efd' < UINT64_MAX.
Proof.
  induction fuel as [| fuel IH]; intros nonblock count0 efd o c efd' Hc;
    cbn [eventfd_read_loop]; [discriminate |].
  destruct (eventfd_read_locked nonblock count0 efd) as [[x c1] efd1] eqn:L.
  pose proof (read_locked_range _ _ _ _ _ _ Hc L) as Hc1.
  destruct x.
  - now intros [= _ _ <-].
  - destruct (k_sem_take_forever (read_sem efd1)) as [s |].
    + apply IH. exact Hc1.
    + now intros [= _ _ <-].
  - now intros [= _ _ <-].
Qed.

Lemma read_op_range fuel efd buf sz o buf' efd' :
  0 <= cnt efd < UINT64_MAX ->
  eventfd_read_op fuel efd buf sz = Some (o, buf', efd') ->
  0 <= cnt efd' < UINT64_MAX.
Proof.
  intros Hc. unfold eventfd_read_op.
  destruct (sz <? sizeof_eventfd_t); [now intros [= _ _ <-] |].
  cbv zeta.
  destruct (eventfd_read_loop _ _ _ _) as [[[o1 c1] efd1] |] eqn:L; [| discriminate].
  apply read_loop_range in L; [| exact Hc].
  destruct o1; now intros [= _ _ <-].
Qed.

Lemma write_locked_range nonblock count0 efd x efd' :
  0 <= count0 ->
  0 <= cnt efd < UINT64_MAX ->
  eventfd_write_locked nonblock count0 efd = (x, efd') ->
  0 <= cnt efd' < UINT64_MAX.
Proof.
  intros H0 Hc. unfold eventfd_write_locked.
  destruct (UINT64_MAX - count0 <=? cnt efd) eqn:E.
  - destruct nonblock; cbn [andb]; now intros [= _ <-].
  - apply Z.leb_gt in E. rewrite andb_false_r. intros [= _ <-].
    cbn [cnt set_cnt]. rewrite u64_small; lia.
Qed.

Lemma write_loop_range fuel : forall nonblock count0 efd o efd',
  0 <= count0 ->
  0 <= cnt efd < UINT64_MAX ->
  eventfd_write_loop fuel nonblock count0 efd = Some (o, efd') ->
  0 <= cnt efd' < UINT64_MAX.
Proof.
  induction fuel as [| fuel IH]; intros nonblock count0 efd o efd' H0 Hc;
    cbn [eventfd_write_loop]; [discriminate |].
  destruct (eventfd_write_locked nonblock count0 efd) as [x efd1] eqn:L.
  pose proof (write_locked_range _ _ _ _ _ H0 Hc L) as Hc1.
  destruct x.
  - now intros [= _ <-].
  - destruct (k_sem_take_forever (write_sem efd1)) as [s |].
    + apply IH; assumption.
    + now intros [= _ <-].
  - now intros [= _ <-].
Qed.

Lemma write_op_range fuel efd buf sz o efd' :
  0 <= buf <= UINT64_MAX ->
  0 <= cnt efd < UINT64_MAX ->
  eventfd_write_op fuel efd buf sz = Some (o, efd') ->
  0 <= cnt efd' < UINT64_MAX.
Proof.
  intros Hb Hc. unfold eventfd_write_op.
  destruct (sz <? sizeof_eventfd_t); [now intros [= _ <-] |].
  cbv zeta.
  destruct (buf =? UINT64_MAX); [now intros [= _ <-] |].
  destruct (buf =? 0); [now intros [= _ <-] |].
  destruct (eventfd_write_loop _ _ _ _) as [[o1 efd1] |] eqn:L; [| discriminate].
  apply write_loop_range in L; [| lia | exact Hc].
  destruct o1; now intros [= _ <-].
Qed.

Lemma ioctl_op_cnt self efd request o efd' m :
  eventfd_ioctl_op self efd request = Some (o, efd', m) ->
  cnt efd' = cnt efd.
Proof.
  destruct request; cbn [eventfd_ioctl_op].
  - now intros [= _ <- _].
  - destruct (negb _); now intros [= _ <- _].
  - now intros [= _ <- _].
  - destruct (eventfd_poll_prepare self m0 pev_end) as [[o1 m1] |];
      [now intros [= _ <- _] | discriminate].
  - destruct (eventfd_poll_update m0) as [[o1 m1] |];
      [now intros [= _ <- _] | discriminate].
  - now intros [= _ <- _].
Qed.

Lemma reachable_range (efd : struct_eventfd) :
  reachable efd -> 0 <= cnt efd < UINT64_MAX.
Proof.
  induction 1 as [efds reserved initval flags_arg r i efds' efd Hcreate Hnth
                 | fuel efd buf sz o buf' efd' _ IH Hread
                 | fuel efd buf sz o efd' _ IH Hbuf Hwrite
                 | self efd request o efd' m _ IH Hioctl].
  - apply eventfd_success in Hcreate.
    destruct Hcreate as (_ & _ & _ & _ & Hn).
    rewrite Hn in Hnth. injection Hnth as <-.
    cbn [efd_created cnt]. unfold unsigned_int, UINT64_MAX.
    pose proof (Z.mod_pos_bound initval (2 ^ 32)). lia.
  - eapply read_op_range; eassumption.
  - eapply write_op_range; eassumption.
  - apply ioctl_op_cnt in Hioctl. now rewrite Hioctl.
Qed.

(** C5: in every state an event object reaches from its creation through
    reads, writes and ioctl requests, the counter differs from
    [UINT64_MAX]. *)
Theorem counter_never_sentinel (efd : struct_eventfd) :
  reachable efd -> cnt efd <> UINT64_MAX.
Proof.
  intros H. apply reachable_range in H. lia.
Qed.

(** *** The loops end *)

Lemma read_loop_S fuel nonblock count0 efd :
  eventfd_read_loop (S fuel) nonblock count0 efd =
  match eventfd_read_locked nonblock count0 efd with
  | (ExitRepeat, count1, efd1) =>
      match k_sem_take_forever (read_sem efd1) with
      | Some s => eventfd_read_loop fuel nonblock count1 (set_read_sem efd1 s)
      | None => Some (Suspended, count1, efd1)
      end
  | (ExitError e, count1, efd1) => Some (Failed e, count1, efd1)
  | (ExitDone, count1, efd1) => Some (Returned 0, count1, efd1)
  end.
Proof. reflexivity. Qed.

Lemma write_loop_S fuel nonblock count0 efd :
  eventfd_write_loop (S fuel) nonblock count0 efd =
  match eventfd_write_locked nonblock count0 efd with
  | (ExitRepeat, efd1) =>
      match k_sem_take_forever (write_sem efd1) with
      | Some s => eventfd_write_loop fuel nonblock count0 (set_write_sem efd1 s)
      | None => Some (Suspended, efd1)
      end
  | (ExitError e, efd1) =>
      Some (Failed e, set_read_sem efd1 (k_sem_give (read_sem efd1)))
  | (ExitDone, efd1) =>
      Some (Returned 0, set_read_sem efd1 (k_sem_give (read_sem efd1)))
  end.
Proof. reflexivity. Qed.

(** Each retry consumes one unit of the semaphore it waits on, so a fuel
    above the semaphore's count is enough, and more fuel changes nothing. *)
Lemma read_loop_total fuel : forall nonblock count0 efd,
  (Z.to_nat (count (read_sem efd)) < fuel)%nat ->
  exists r, eventfd_read_loop fuel nonblock count0 efd = Some r.
Proof.
  induction fuel as [| fuel IH]; intros nonblock count0 efd Hfuel; [lia |].
  cbn [eventfd_read_loop].
  destruct (eventfd_read_locked nonblock count0 efd) as [[x c1] efd1] eqn:L.
  destruct x; eauto.
  destruct (read_locked_not_done _ _ _ _ _ _ L) as (-> & -> & _); [discriminate |].
  destruct (k_sem_take_forever (read_sem efd)) as [s |] eqn:T; eauto.
  apply take_forever_count in T. apply IH. cbn [read_sem set_read_sem]. lia.
Qed.

Lemma read_loop_more_fuel fuel : forall nonblock count0 efd r,
  eventfd_read_loop fuel nonblock count0 efd = Some r ->
  eventfd_read_loop (S fuel) nonblock count0 efd = Some r.
Proof.
  induction fuel as [| fuel IH]; intros nonblock count0 efd r; [discriminate |].
  intros H. rewrite read_loop_S in H. rewrite read_loop_S.
  destruct (eventfd_read_locked nonblock count0 efd) as [[x c1] efd1].
  destruct x; auto.
  destruct (k_sem_take_forever (read_sem efd1)) as [s |]; auto.
Qed.

Lemma read_op_total (efd : struct_eventfd) (buf sz : Z) :
  exists r,
    eventfd_read_op (S (Z.to_nat (count (read_sem efd)))) efd buf sz = Some r.
Proof.
  unfold eventfd_read_op.
  destruct (sz <? sizeof_eventfd_t); eauto.
  cbv zeta.
  destruct (read_loop_total (S (Z.to_nat (count (read_sem efd))))
              (negb (Z.land (flags efd) EFD_NONBLOCK =? 0)) 0
              (set_read_sem efd (k_sem_take_no_wait (read_sem efd))))
    as [[[o c] efd1] H].
  - cbn [read_sem set_read_sem]. unfold k_sem_take_no_wait.
    destruct (0 <? count (read_sem efd)); cbn [count]; lia.
  - rewrite H. destruct o; eauto.
Qed.

Lemma write_loop_total fuel : forall nonblock count0 efd,
  (Z.to_nat (count (write_sem efd)) < fuel)%nat ->
  exists r, eventfd_write_loop fuel nonblock count0 efd = Some r.
Proof.
  induction fuel as [| fuel IH]; intros nonblock count0 efd Hfuel; [lia |].
  cbn [eventfd_write_loop].
  destruct (eventfd_write_locked nonblock count0 efd) as [x efd1] eqn:L.
  destruct x; eauto.
  destruct (write_locked_not_done _ _ _ _ _ L) as (-> & _); [discriminate |].
  destruct (k_sem_take_forever (write_sem efd)) as [s |] eqn:T; eauto.
  apply take_forever_count in T. apply IH. cbn [write_sem set_write_sem]. lia.
Qed.

Lemma write_loop_more_fuel fuel : forall nonblock count0 efd r,
  eventfd_write_loop fuel nonblock count0 efd = Some r ->
  eventfd_write_loop (S fuel) nonblock count0 efd = Some r.
Proof.
  induction fuel as [| fuel IH]; intros nonblock count0 efd r; [discriminate |].
  intros H. rewrite write_loop_S in H. rewrite write_loop_S.
  destruct (eventfd_write_locked nonblock count0 efd) as [x efd1].
  destruct x; auto.
  destruct (k_sem_take_forever (write_sem efd1)) as [s |]; auto.
Qed.

Lemma write_op_total (efd : struct_eventfd) (buf sz : Z) :
  exists r,
    eventfd_write_op (S (Z.to_nat (count (write_sem efd)))) efd buf sz = Some r.
Proof.
  unfold eventfd_write_op.
  destruct (sz <? sizeof_eventfd_t); eauto.
  cbv zeta.
  destruct (buf =? UINT64_MAX); eauto.
  destruct (buf =? 0); eauto.
  destruct (write_loop_total (S (Z.to_nat (count (write_sem efd))))
              (negb (Z.land (flags efd) EFD_NONBLOCK =? 0)) buf efd)
    as [[o efd1] H]; [lia |].
  rewrite H. destruct o; eauto.
Qed.

(** A blocking read of an empty object suspends its caller. *)
Lemma read_op_zero_blocks (fuel : nat) (efd : struct_eventfd) (buf sz : Z) :
  sizeof_eventfd_t <= sz -> cnt efd = 0 ->
  Z.land (flags efd) EFD_NONBLOCK = 0 ->
  count (read_sem efd) <= 1 ->
  eventfd_read_op (S fuel) efd buf sz =
    Some (Suspended, buf, set_read_sem efd (k_sem_take_no_wait (read_sem efd))).
Proof.
  intros Hsz Hc Hnb Hsem. unfold eventfd_read_op.
  destruct (sz <? sizeof_eventfd_t) eqn:E1; [apply Z.ltb_lt in E1; lia |].
  cbv zeta. cbn [eventfd_read_loop]. unfold eventfd_read_locked.
  cbn [cnt flags set_read_sem].
  rewrite Hnb, Hc. cbn [Z.eqb negb andb].
  unfold k_sem_take_forever. cbn [read_sem set_read_sem].
  assert (H : (0 <? count (k_sem_take_no_wait (read_sem efd))) = false).
  { apply Z.ltb_ge. unfold k_sem_take_no_wait.
    destruct (0 <? count (read_sem efd)) eqn:E; cbn [count]; [lia |].
    now apply Z.ltb_ge in E. }
  now rewrite H.
Qed.

(** *** Failed calls and the semaphores *)

(** Between calls [read_sem] is asserted exactly when the counter is not
    zero: a failing read finds it already reset, and the [k_sem_give] of a
    failing write finds it already given. *)
Lemma read_op_tracks fuel efd buf sz o buf' efd' :
  read_sem_tracks_cnt efd ->
  eventfd_read_op fuel efd buf sz = Some (o, buf', efd') ->
  read_sem_tracks_cnt efd' /\ (forall e, o = Failed e -> efd' = efd).
Proof.
  unfold read_sem_tracks_cnt, eventfd_read_op.
  destruct efd as [rs ws c f]. cbn [read_sem cnt flags]. intros ->.
  destruct (sz <? sizeof_eventfd_t).
  { intros [= <- <- <-]. now split. }
  destruct fuel as [| fuel]; [discriminate |].
  rewrite read_loop_S.
  unfold eventfd_read_locked, k_sem_take_no_wait, k_sem_take_forever,
    k_sem_give, k_sem_init, set_read_sem, set_cnt, set_write_sem.
  destruct (c =? 0) eqn:Ec.
  - cbn -[Z.land]. rewrite Ec.
    destruct (negb (Z.land f EFD_NONBLOCK =? 0)); cbn -[Z.land];
      intros [= <- <- <-]; cbn; rewrite Ec; split; try reflexivity; discriminate.
  - cbn -[Z.land u64]. rewrite Ec, andb_false_r.
    destruct (u64 _ =? 0) eqn:E1; cbn -[Z.land u64];
      intros [= <- <- <-]; cbn -[Z.land u64]; rewrite E1;
      (split; [reflexivity | discriminate]).
Qed.

Lemma write_loop_blocking fuel : forall count0 efd o efd',
  eventfd_write_loop fuel false count0 efd = Some (o, efd') ->
  forall e, o <> Failed e.
Proof.
  induction fuel as [| fuel IH]; intros count0 efd o efd'; [discriminate |].
  rewrite write_loop_S. unfold eventfd_write_locked. cbn [andb].
  destruct (UINT64_MAX - count0 <=? cnt efd).
  - destruct (k_sem_take_forever (write_sem efd)) as [s |].
    + apply IH.
    + intros [= <- _]. discriminate.
  - intros [= <- _]. discriminate.
Qed.

Lemma write_loop_tracks fuel : forall nonblock count0 efd o efd',
  0 < count0 < UINT64_MAX -> 0 <= cnt efd ->
  read_sem_tracks_cnt efd ->
  eventfd_write_loop fuel nonblock count0 efd = Some (o, efd') ->
  read_sem_tracks_cnt efd' /\ (forall e, o = Failed e -> efd' = efd).
Proof.
  induction fuel as [| fuel IH]; intros nonblock count0 efd o efd' Hv Hc Ht;
    [discriminate |].
  rewrite write_loop_S. unfold eventfd_write_locked.
  destruct (UINT64_MAX - count0 <=? cnt efd) eqn:Eo.
  - apply Z.leb_le in Eo.
    assert (Hnz : (cnt efd =? 0) = false) by (apply Z.eqb_neq; lia).
    assert (Hgive : set_read_sem efd (k_sem_give (read_sem efd)) = efd).
    { unfold read_sem_tracks_cnt in Ht. rewrite Hnz in Ht.
      destruct efd as [rs ws c f]. cbn [read_sem] in Ht |- *. subst rs.
      reflexivity. }
    destruct nonblock; cbn [andb].
    + intros [= <- <-]. rewrite Hgive. auto.
    + destruct (k_sem_take_forever (write_sem efd)) as [s |].
      * intros H. split.
        -- now apply IH in H.
        -- intros e He. apply write_loop_blocking with (e := e) in H. now elim H.
      * intros [= <- <-]. split; [exact Ht | discriminate].
  - rewrite andb_false_r. apply Z.leb_gt in Eo.
    intros [= <- <-]. split; [| discriminate].
    unfold read_sem_tracks_cnt in *.
    cbn [read_sem cnt set_read_sem set_cnt].
    rewrite u64_small by lia.
    assert (Hnz : (cnt efd + count0 =? 0) = false) by (apply Z.eqb_neq; lia).
    rewrite Hnz, Ht. unfold k_sem_give, k_sem_init. cbn [count limit].
    now destruct (cnt efd =? 0).
Qed.

Lemma write_op_tracks fuel efd buf sz o efd' :
  0 <= buf <= UINT64_MAX -> 0 <= cnt efd ->
  read_sem_tracks_cnt efd ->
  eventfd_write_op fuel efd buf sz = Some (o, efd') ->
  read_sem_tracks_cnt efd' /\ (forall e, o = Failed e -> efd' = efd).
Proof.
  intros Hb Hc Ht. unfold eventfd_write_op.
  destruct (sz <? sizeof_eventfd_t); [intros [= <- <-]; now split |].
  cbv zeta.
  destruct (buf =? UINT64_MAX) eqn:E1; [intros [= <- <-]; now split |].
  destruct (buf =? 0) eqn:E2; [intros [= <- <-]; now split |].
  apply Z.eqb_neq in E1, E2.
  destruct (eventfd_write_loop _ _ _ _) as [[o1 efd1] |] eqn:L; [| discriminate].
  apply write_loop_tracks in L; [| lia | exact Hc | exact Ht].
  destruct L as [Ht1 Hfail].
  destruct o1; intros [= <- <-]; split; auto; discriminate.
Qed.

Lemma ioctl_op_sems self efd request o efd' m :
  eventfd_ioctl_op self efd request = Some (o, efd', m) ->
  read_sem efd' = read_sem efd /\ cnt efd' = cnt efd.
Proof.
  destruct request; cbn [eventfd_ioctl_op].
  - now intros [= _ <- _].
  - destruct (negb _); now intros [= _ <- _].
  - now intros [= _ <- _].
  - destruct (eventfd_poll_prepare self m0 pev_end) as [[o1 m1] |];
      [now intros [= _ <- _] | discriminate].
  - destruct (eventfd_poll_update m0) as [[o1 m1] |];
      [now intros [= _ <- _] | discriminate].
  - now intros [= _ <- _].
Qed.

Lemma reachable_tracks (efd : struct_eventfd) :
  reachable efd -> read_sem_tracks_cnt efd.
Proof.
  induction 1 as [efds reserved initval flags_arg r i efds' efd Hcreate Hnth
                 | fuel efd buf sz o buf' efd' Hreach IH Hread
                 | fuel efd buf sz o efd' Hreach IH Hbuf Hwrite
                 | self efd request o efd' m _ IH Hioctl].
  - apply eventfd_success in Hcreate.
    destruct Hcreate as (_ & _ & _ & _ & Hn).
    rewrite Hn in Hnth. injection Hnth as <-.
    unfold read_sem_tracks_cnt, efd_created. cbn [read_sem cnt].
    now destruct (unsigned_int initval =? 0).
  - now apply read_op_tracks in Hread.
  - apply reachable_range in Hreach.
    apply write_op_tracks in Hwrite; auto; [tauto | lia].
  - apply ioctl_op_sems in Hioctl. destruct Hioctl as [Hs Hc].
    unfold read_sem_tracks_cnt in *. now rewrite Hs, Hc.
Qed.

(** On an object reached through calls, a read or a write that fails leaves
    the whole object as it was, the two semaphores included. *)
Lemma failed_call_leaves_object fuel efd buf sz e :
  reachable efd ->
  (forall buf' efd',
     eventfd_read_op fuel efd buf sz = Some (Failed e, buf', efd') ->
     efd' = efd /\ buf' = buf) /\
  (forall efd',
     0 <= buf <= UINT64_MAX ->
     eventfd_write_op fuel efd buf sz = Some (Failed e, efd') ->
     efd' = efd).
Proof.
  intros Hreach.
  pose proof (reachable_tracks _ Hreach) as Ht.
  pose proof (reachable_range _ Hreach) as Hc.
  split.
  - intros buf' efd' H.
    pose proof (read_op_frame _ _ _ _ _ _ _ H) as (_ & Hb & _).
    apply read_op_tracks in H; [| exact Ht].
    split; [now apply (proj2 H e) |].
    apply Hb. discriminate.
  - intros efd' Hb H.
    apply write_op_tracks in H; auto; [| lia].
    now apply (proj2 H e).
Qed.

(** *** What a call that returns has moved *)


Lemma read_loop_blocking fuel : forall count0 efd o c efd',
  eventfd_read_loop fuel false count0 efd = Some (o, c, efd') ->
  forall e, o <> Failed e.
Proof.
  induction fuel as [| fuel IH]; intros count0 efd o c efd'; [discriminate |].
  rewrite read_loop_S. unfold eventfd_read_locked. cbn [andb].
  destruct (cnt efd =? 0).
  - destruct (k_sem_take_forever (read_sem efd)) as [s |].
    + apply IH.
    + intros [= <- _ _]. discriminate.
  - cbv zeta. intros [= <- _ _]. discriminate.
Qed.

Lemma write_loop_done fuel : forall nonblock count0 efd r efd',
  eventfd_write_loop fuel nonblock count0 efd = Some (Returned r, efd') ->
  cnt efd < UINT64_MAX - count0 /\
  cnt efd' = u64 (cnt efd + count0) /\
  flags efd' = flags efd.
Proof.
  induction fuel as [| fuel IH]; intros nonblock count0 efd r efd';
    [discriminate |].
  rewrite write_loop_S. unfold eventfd_write_locked.
  destruct (UINT64_MAX - count0 <=? cnt efd) eqn:Eo.
  - destruct nonblock; cbn [andb]; [discriminate |].
    destruct (k_sem_take_forever (write_sem efd)) as [s |]; [| discriminate].
    intros H. apply IH in H. exact H.
  - rewrite andb_false_r. apply Z.leb_gt in Eo.
    intros [= _ <-]. cbn [cnt flags set_read_sem set_cnt]. auto.
Qed.



(** X2: a write that returns normally has added exactly the value written,
    without wrap-around, and has left the counter below [UINT64_MAX]. *)
Theorem write_adds_exactly (fuel : nat) (efd : struct_eventfd) (v sz r : Z)
  (efd' : struct_eventfd) :
  0 <= v <= UINT64_MAX ->
  0 <= cnt efd < UINT64_MAX ->
  eventfd_write_op fuel efd v sz = Some (Returned r, efd') ->
  cnt efd' = cnt efd + v /\ cnt efd' < UINT64_MAX /\ flags efd' = flags efd.
Proof.
  intros Hv Hc. unfold eventfd_write_op.
  destruct (sz <? sizeof_eventfd_t); [discriminate |].
  cbv zeta.
  destruct (v =? UINT64_MAX); [discriminate |].
  destruct (v =? 0) eqn:E0.
  - apply Z.eqb_eq in E0. intros [= _ <-]. subst v. repeat split; lia.
  - destruct (eventfd_write_loop _ _ _ _) as [[o1 efd1] |] eqn:L; [| discriminate].
    destruct o1; intros [= _ <-].
    apply write_loop_done in L. destruct L as (Hfit & Hcnt & Hfl).
    rewrite Hcnt, u64_small by lia. repeat split; auto; lia.
Qed.

Lemma write_each_sum fuel sz : forall vs efd,
  sizeof_eventfd_t <= sz ->
  0 <= cnt efd ->
  (forall v, In v vs -> 0 < v) ->
  cnt efd + fold_right Z.add 0 vs < UINT64_MAX ->
  exists efd',
    write_each (S fuel) efd vs sz = Some efd' /\
    cnt efd' = cnt efd + fold_right Z.add 0 vs /\
    flags efd' = flags efd.
Proof.
  induction vs as [| v vs IH]; intros efd Hsz Hc Hpos Hsum.
  - exists efd. cbn [write_each fold_right]. repeat split. lia.
  - cbn [fold_right] in Hsum.
    assert (Hv : 0 < v) by (apply Hpos; now left).
    assert (Hrest : 0 <= fold_right Z.add 0 vs).
    { clear -Hpos. induction vs as [| w vs IHvs]; cbn [fold_right]; [lia |].
      assert (0 < w) by (apply Hpos; right; now left).
      assert (0 <= fold_right Z.add 0 vs).
      { apply IHvs. intros u Hu. apply Hpos.
        destruct Hu as [-> | Hu]; [now left | right; now right]. }
      lia. }
    cbn [write_each].
    rewrite write_op_fits by lia.
    destruct (IH (set_read_sem (set_cnt efd (cnt efd + v))
                    (k_sem_give (read_sem efd)))) as (efd' & Hw & Hcnt & Hfl);
      cbn [cnt flags set_read_sem set_cnt]; auto; try lia.
    { intros u Hu. apply Hpos. now right. }
    exists efd'. split; [exact Hw |].
    cbn [cnt flags set_read_sem set_cnt fold_right] in *. split; [lia | exact Hfl].
Qed.

(** X3: writes accumulate.  In default mode, after the values of a list
    have been written one after the other (all positive, their sum with the
    counter below [UINT64_MAX]), every write has returned and one read
    gives back the counter before the writes plus the sum of the list, and
    leaves the counter at 0. *)
Theorem writes_accumulate (fuel : nat) (efd : struct_eventfd) (vs : list Z)
  (buf sz : Z) :
  sizeof_eventfd_t <= sz ->
  Z.land (flags efd) EFD_SEMAPHORE = 0 ->
  0 <= cnt efd ->
  (forall v, In v vs -> 0 < v) ->
  0 < cnt efd + fold_right Z.add 0 vs < UINT64_MAX ->
  exists efd1 efd2,
    write_each (S fuel) efd vs sz = Some efd1 /\
    eventfd_read_op (S fuel) efd1 buf sz =
      Some (Returned 8, cnt efd + fold_right Z.add 0 vs, efd2) /\
    cnt efd2 = 0.
Proof.
  intros Hsz Hmode Hc Hpos Hsum.
  destruct (write_each_sum fuel sz vs efd Hsz Hc Hpos) as (efd1 & Hw & Hcnt & Hfl);
    [lia |].
  destruct (read_op_nonzero fuel efd1 buf sz Hsz) as (efd2 & Hr & Hcnt2 & _);
    [lia |].
  rewrite Hfl, Hmode in Hr, Hcnt2. cbn [Z.eqb negb] in Hr, Hcnt2.
  exists efd1, efd2. split; [exact Hw |].
  rewrite Hcnt in Hr. split; [exact Hr |].
  now rewrite Hcnt2, Z.sub_diag.
Qed.

(** *** Blocking and non-blocking *)

Lemma read_op_nonblock_ends (fuel : nat) (efd : struct_eventfd) (buf sz : Z) :
  Z.land (flags efd) EFD_NONBLOCK <> 0 ->
  exists o buf' efd',
    eventfd_read_op (S fuel) efd buf sz = Some (o, buf', efd') /\ o <> Suspended.
Proof.
  intros Hnb.
  destruct (Z.ltb_spec sz sizeof_eventfd_t) as [Hlt | Hge].
  - exists (Failed EINVAL), buf, efd. split; [| discriminate].
    apply (proj2 (Z.ltb_lt _ _)) in Hlt. unfold eventfd_read_op. now rewrite Hlt.
  - destruct (Z.eq_dec (cnt efd) 0) as [Hc | Hc].
    + do 3 eexists. split; [now apply read_op_zero_nonblock | discriminate].
    + destruct (read_op_nonzero fuel efd buf sz Hge Hc) as (efd' & Hr & _).
      do 3 eexists. split; [exact Hr | discriminate].
Qed.

Lemma write_op_nonblock_ends (fuel : nat) (efd : struct_eventfd) (buf sz : Z) :
  Z.land (flags efd) EFD_NONBLOCK <> 0 ->
  exists o efd',
    eventfd_write_op (S fuel) efd buf sz = Some (o, efd') /\ o <> Suspended.
Proof.
  intros Hnb. apply Z.eqb_neq in Hnb. unfold eventfd_write_op.
  destruct (sz <? sizeof_eventfd_t).
  { do 2 eexists. split; [reflexivity | discriminate]. }
  cbv zeta.
  destruct (buf =? UINT64_MAX).
  { do 2 eexists. split; [reflexivity | discriminate]. }
  destruct (buf =? 0).
  { do 2 eexists. split; [reflexivity | discriminate]. }
  rewrite write_loop_S. unfold eventfd_write_locked. rewrite Hnb. cbn [negb andb].
  destruct (UINT64_MAX - buf <=? cnt efd);
    do 2 eexists; (split; [reflexivity | discriminate]).
Qed.

(** X4: EAGAIN belongs to the non-blocking mode and suspension to the
    blocking one.  With [EFD_NONBLOCK] clear neither a read nor a write
    fails with EAGAIN; with [EFD_NONBLOCK] set both end within the first
    pass of their loop and never leave the caller suspended. *)
Theorem eagain_only_when_nonblocking (fuel : nat) (efd : struct_eventfd)
  (buf sz : Z) :
  (Z.land (flags efd) EFD_NONBLOCK = 0 ->
   (forall buf' efd',
      eventfd_read_op fuel efd buf sz <> Some (Failed EAGAIN, buf', efd')) /\
   (forall efd',
      eventfd_write_op fuel efd buf sz <> Some (Failed EAGAIN, efd'))) /\
  (Z.land (flags efd) EFD_NONBLOCK <> 0 ->
   (exists o buf' efd',
      eventfd_read_op (S fuel) efd buf sz = Some (o, buf', efd') /\
      o <> Suspended) /\
   (exists o efd',
      eventfd_write_op (S fuel) efd buf sz = Some (o, efd') /\
      o <> Suspended)).
Proof.
  split.
  - intros Hb. split.
    + intros buf' efd' H. unfold eventfd_read_op in H.
      destruct (sz <? sizeof_eventfd_t); [discriminate |].
      cbv zeta in H. rewrite Hb in H. cbn [Z.eqb negb] in H.
      destruct (eventfd_read_loop _ _ _ _) as [[[o c1] efd1] |] eqn:L;
        [| discriminate].
      pose proof (read_loop_blocking _ _ _ _ _ _ L) as Hne.
      destruct o; try discriminate. now elim (Hne errno).
    + intros efd' H. unfold eventfd_write_op in H.
      destruct (sz <? sizeof_eventfd_t); [discriminate |].
      cbv zeta in H.
      destruct (buf =? UINT64_MAX); [discriminate |].
      destruct (buf =? 0); [discriminate |].
      rewrite Hb in H. cbn [Z.eqb negb] in H.
      destruct (eventfd_write_loop _ _ _ _) as [[o efd1] |] eqn:L;
        [| discriminate].
      pose proof (write_loop_blocking _ _ _ _ _ L) as Hne.
      destruct o; try discriminate. now elim (Hne errno).
  - intros Hnb. split.
    + now apply read_op_nonblock_ends.
    + now apply write_op_nonblock_ends.
Qed.

(** *** Reads in a row *)

(** X20: in semaphore mode a counter of [c] serves [c] reads.  With
    [EFD_SEMAPHORE] set and [n <= c], [n] reads in a row all return, each
    storing 1, and leave the counter at [c - n]; with [EFD_NONBLOCK] set
    and [n = c] the read after them fails with EAGAIN. *)
Theorem semaphore_counter_serves_reads (fuel : nat) (sz : Z) :
  sizeof_eventfd_t <= sz ->
  forall (n : nat) (efd : struct_eventfd) (buf : Z),
    Z.land (flags efd) EFD_SEMAPHORE <> 0 ->
    Z.of_nat n <= cnt efd <= UINT64_MAX ->
    exists efd',
      read_each (S fuel) efd buf n sz = Some (repeat 1 n, efd') /\
      cnt efd' = cnt efd - Z.of_nat n /\
      flags efd' = flags efd /\
      (cnt efd = Z.of_nat n -> Z.land (flags efd) EFD_NONBLOCK <> 0 ->
       exists efd'',
         eventfd_read_op (S fuel) efd' 1 sz = Some (Failed EAGAIN, 1, efd'')).
Proof.
  intros Hsz. induction n as [| n IH]; intros efd buf Hmode Hc.
  - exists efd. cbn [read_each repeat]. split; [reflexivity |].
    split; [cbn; lia |]. split; [reflexivity |].
    intros H0 Hnb. eexists. apply read_op_zero_nonblock; auto.
  - destruct (semaphore_read fuel efd buf sz Hmode Hsz) as (efd1 & Hr & Hc1 & Hf1);
      [lia |].
    destruct (IH efd1 1) as (efd' & Hrest & Hc' & Hf' & Hlast).
    { now rewrite Hf1. }
    { lia. }
    exists efd'. cbn [read_each repeat]. rewrite Hr, Hrest.
    split; [reflexivity |]. split; [lia |]. split; [congruence |].
    intros H0 Hnb. apply Hlast; [lia | now rewrite Hf1].
Qed.

(** *** The loops do not spin *)

Lemma read_op_more_fuel fuel efd buf sz r :
  eventfd_read_op fuel efd buf sz = Some r ->
  eventfd_read_op (S fuel) efd buf sz = Some r.
Proof.
  unfold eventfd_read_op.
  destruct (sz <? sizeof_eventfd_t); [auto |].
  cbv zeta.
  destruct (eventfd_read_loop fuel _ _ _) as [x |] eqn:L; [| discriminate].
  apply read_loop_more_fuel in L. now rewrite L.
Qed.

Lemma write_op_more_fuel fuel efd buf sz r :
  eventfd_write_op fuel efd buf sz = Some r ->
  eventfd_write_op (S fuel) efd buf sz = Some r.
Proof.
  unfold eventfd_write_op.
  destruct (sz <? sizeof_eventfd_t); [auto |].
  cbv zeta.
  destruct (buf =? UINT64_MAX); [auto |].
  destruct (buf =? 0); [auto |].
  destruct (eventfd_write_loop fuel _ _ _) as [x |] eqn:L; [| discriminate].
  apply write_loop_more_fuel in L. now rewrite L.
Qed.

Lemma read_op_ends (efd : struct_eventfd) (buf sz : Z) (fuel : nat) :
  (Z.to_nat (count (read_sem efd)) < fuel)%nat ->
  exists r, eventfd_read_op fuel efd buf sz = Some r.
Proof.
  intros Hfuel. unfold eventfd_read_op.
  destruct (sz <? sizeof_eventfd_t); eauto.
  cbv zeta.
  destruct (read_loop_total fuel
              (negb (Z.land (flags efd) EFD_NONBLOCK =? 0)) 0
              (set_read_sem efd (k_sem_take_no_wait (read_sem efd))))
    as [[[o c] efd1] H].
  - cbn [read_sem set_read_sem]. unfold k_sem_take_no_wait.
    destruct (0 <? count (read_sem efd)); cbn [count]; lia.
  - rewrite H. destruct o; eauto.
Qed.

Lemma write_op_ends (efd : struct_eventfd) (buf sz : Z) (fuel : nat) :
  (Z.to_nat (count (write_sem efd)) < fuel)%nat ->
  exists r, eventfd_write_op fuel efd buf sz = Some r.
Proof.
  intros Hfuel. unfold eventfd_write_op.
  destruct (sz <? sizeof_eventfd_t); eauto.
  cbv zeta.
  destruct (buf =? UINT64_MAX); eauto.
  destruct (buf =? 0); eauto.
  destruct (write_loop_total fuel
              (negb (Z.land (flags efd) EFD_NONBLOCK =? 0)) buf efd Hfuel)
    as [[o efd1] H].
  rewrite H. destruct o; eauto.
Qed.

(** X5: a call run on its own does not spin.  Every further pass through
    the loop of a read has consumed a unit of [read_sem], and of a write a
    unit of [write_sem]: a number of passes above the count of that
    semaphore always brings the call to its end (a return, a failure or a
    suspension), and allowing more passes does not change the result. *)
Theorem calls_end_within_semaphore_count (efd : struct_eventfd) (buf sz : Z)
  (fuel k : nat) :
  ((Z.to_nat (count (read_sem efd)) < fuel)%nat ->
   exists r,
     eventfd_read_op fuel efd buf sz = Some r /\
     eventfd_read_op (fuel + k) efd buf sz = Some r) /\
  ((Z.to_nat (count (write_sem efd)) < fuel)%nat ->
   exists r,
     eventfd_write_op fuel efd buf sz = Some r /\
     eventfd_write_op (fuel + k) efd buf sz = Some r).
Proof.
  split; intros Hfuel.
  - destruct (read_op_ends efd buf sz fuel Hfuel) as [r Hr].
    exists r. split; [exact Hr |].
    induction k as [| k IH].
    + now rewrite Nat.add_0_r.
    + rewrite Nat.add_succ_r. now apply read_op_more_fuel.
  - destruct (write_op_ends efd buf sz fuel Hfuel) as [r Hr].
    exists r. split; [exact Hr |].
    induction k as [| k IH].
    + now rewrite Nat.add_0_r.
    + rewrite Nat.add_succ_r. now apply write_op_more_fuel.
Qed.

(** *** ioctl requests *)

(** X6: no ioctl request touches the counter or the two semaphores.  The
    flags change only through F_SETFL that returns 0 (they become the
    argument) and through ZFD_IOCTL_CLOSE (they become 0); F_GETFL leaves
    the object as it is, and so does a request the function does not know,
    which fails with EOPNOTSUPP. *)
Theorem ioctl_keeps_counter_and_semaphores (self : nat) (efd : struct_eventfd)
  (request : ioctl_request) (o : outcome) (efd' : struct_eventfd)
  (m : option poll_mem) :
  eventfd_ioctl_op self efd request = Some (o, efd', m) ->
  cnt efd' = cnt efd /\
  read_sem efd' = read_sem efd /\
  write_sem efd' = write_sem efd /\
  (flags efd' = flags efd \/
   (exists f, request = F_SETFL f /\ o = Returned 0 /\ flags efd' = f) \/
   (request = ZFD_IOCTL_CLOSE /\ flags efd' = 0)) /\
  (request = F_GETFL ->
   efd' = efd /\ o = Returned (Z.land (flags efd) EFD_FLAGS_SET)) /\
  (forall r, request = IOCTL_UNKNOWN r -> o = Failed EOPNOTSUPP /\ efd' = efd).
Proof.
  destruct request as [| f | | pm pev_end | pm | r0]; cbn [eventfd_ioctl_op].
  - intros [= <- <- _]. repeat split; auto; discriminate.
  - destruct (negb _); intros [= <- <- _]; cbn [cnt read_sem write_sem flags set_flags];
      repeat split; auto; try discriminate.
    right. left. exists f. auto.
  - intros [= <- <- _]. cbn [cnt read_sem write_sem flags set_flags].
    repeat split; auto; discriminate.
  - destruct (eventfd_poll_prepare self pm pev_end) as [[o1 m1] |];
      [| discriminate].
    intros [= <- <- _]. repeat split; auto; discriminate.
  - destruct (eventfd_poll_update pm) as [[o1 m1] |]; [| discriminate].
    intros [= <- <- _]. repeat split; auto; discriminate.
  - intros [= <- <- _]. repeat split; auto; try discriminate.
Qed.

(** *** The pool *)

Lemma update_nth_length {A : Type} (x : A) : forall (l : list A) n,
  length (update_nth l n x) = length l.
Proof.
  induction l as [| h t IH]; intros n; [reflexivity |].
  destruct n; cbn [update_nth length]; [reflexivity | now rewrite IH].
Qed.

Lemma update_nth_other {A : Type} (x : A) : forall (l : list A) n j,
  j <> n -> nth_error (update_nth l n x) j = nth_error l j.
Proof.
  induction l as [| h t IH]; intros n j Hj; [reflexivity |].
  destruct n, j; cbn [update_nth nth_error]; try reflexivity.
  - now elim Hj.
  - apply IH. intros ->. now elim Hj.
Qed.

Lemma update_nth_same {A : Type} (x : A) : forall (l : list A) n,
  (n < length l)%nat -> nth_error (update_nth l n x) n = Some x.
Proof.
  induction l as [| h t IH]; intros n Hn; cbn [length] in Hn; [lia |].
  destruct n; cbn [update_nth nth_error]; [reflexivity | apply IH; lia].
Qed.

(** The scan returns the first slot whose [EFD_IN_USE] bit is clear. *)
Lemma find_free_first : forall l k i,
  find_free l k = Some i ->
  (k <= i)%nat /\
  (forall j e, (j < i - k)%nat -> nth_error l j = Some e ->
               Z.land (flags e) EFD_IN_USE <> 0) /\
  exists e, nth_error l (i - k) = Some e /\ Z.land (flags e) EFD_IN_USE = 0.
Proof.
  induction l as [| e l IH]; intros k i; cbn [find_free]; [discriminate |].
  destruct (Z.land (flags e) EFD_IN_USE =? 0) eqn:E.
  - intros [= <-]. rewrite Nat.sub_diag. split; [lia |]. split.
    + intros j e0 Hj. lia.
    + exists e. apply Z.eqb_eq in E. auto.
  - intros H. apply IH in H. destruct H as (Hk & Hused & Hfree).
    replace (i - k)%nat with (S (i - S k)) by lia.
    split; [lia |]. split; [| exact Hfree].
    intros j e0 Hj. destruct j; cbn [nth_error].
    + intros [= <-]. now apply Z.eqb_neq.
    + apply Hused. lia.
Qed.

Lemma find_free_none : forall l k,
  find_free l k = None <->
  (forall e, In e l -> Z.land (flags e) EFD_IN_USE <> 0).
Proof.
  induction l as [| e l IH]; intros k; cbn [find_free].
  - split; [intros _ e [] | reflexivity].
  - destruct (Z.land (flags e) EFD_IN_USE =? 0) eqn:E.
    + apply Z.eqb_eq in E. split; [discriminate |].
      intros H. elim (H e); [now left | exact E].
    + apply Z.eqb_neq in E. rewrite IH. split.
      * intros H e0 [<- | Hin]; auto.
      * intros H e0 Hin. apply H. now right.
Qed.

Lemma find_free_before : forall l k i e,
  nth_error l i = Some e -> Z.land (flags e) EFD_IN_USE = 0 ->
  exists j, (j <= i)%nat /\ find_free l k = Some (k + j)%nat.
Proof.
  induction l as [| h t IH]; intros k i e Hn He.
  - destruct i; discriminate.
  - cbn [find_free].
    destruct (Z.land (flags h) EFD_IN_USE =? 0) eqn:E.
    + exists 0%nat. split; [lia |]. now rewrite Nat.add_0_r.
    + destruct i as [| i]; cbn [nth_error] in Hn.
      * injection Hn as ->. apply Z.eqb_neq in E. now elim E.
      * destruct (IH (S k) i e Hn He) as (j & Hj & Hf).
        exists (S j). split; [lia |]. rewrite Hf. f_equal. lia.
Qed.

(** X7: the ways [eventfd] fails, in the order the function checks them,
    none of which touches the pool: flags outside [EFD_FLAGS_SET] give
    EINVAL whatever the pool holds; with good flags a pool whose slots are
    all in use gives ENOMEM without asking for a descriptor; with a free
    slot, a negative result of [z_reserve_fd] is returned as it is and the
    slot stays free. *)
Theorem eventfd_failure_leaves_pool (efds : list struct_eventfd)
  (reserved initval flags_arg : Z) :
  (Z.land flags_arg (Z.lnot EFD_FLAGS_SET) <> 0 ->
   eventfd efds reserved initval flags_arg = (Failed EINVAL, None, efds)) /\
  (Z.land flags_arg (Z.lnot EFD_FLAGS_SET) = 0 ->
   (forall e, In e efds -> Z.land (flags e) EFD_IN_USE <> 0) ->
   eventfd efds reserved initval flags_arg = (Failed ENOMEM, None, efds)) /\
  (Z.land flags_arg (Z.lnot EFD_FLAGS_SET) = 0 ->
   (exists e, In e efds /\ Z.land (flags e) EFD_IN_USE = 0) ->
   reserved < 0 ->
   eventfd efds reserved initval flags_arg = (Returned reserved, None, efds)) /\
  (forall o efds',
     eventfd efds reserved initval flags_arg = (o, None, efds') ->
     efds' = efds).
Proof.
  unfold eventfd. cbv zeta.
  split; [| split; [| split]].
  - intros H. apply Z.eqb_neq in H. now rewrite H.
  - intros H Hall. apply Z.eqb_eq in H. rewrite H. cbn [negb].
    apply (find_free_none efds 0) in Hall. now rewrite Hall.
  - intros H (e & Hin & He) Hr. apply Z.eqb_eq in H. rewrite H. cbn [negb].
    destruct (find_free efds 0) as [i |] eqn:Ef.
    + apply Z.ltb_lt in Hr. now rewrite Hr.
    + rewrite find_free_none in Ef. now elim (Ef e Hin).
  - intros o efds'.
    destruct (negb _); [now intros [= _ <-] |].
    destruct (find_free efds 0); [| now intros [= _ <-]].
    destruct (reserved <? 0); [now intros [= _ <-] | discriminate].
Qed.

(** X8: a call of [eventfd] that claims a slot claims the first free one:
    every slot before it is in use, the slot itself was free, the pool
    keeps its size and no other slot is written. *)
Theorem eventfd_claims_first_free_slot (efds : list struct_eventfd)
  (reserved initval flags_arg r : Z) (i : nat) (efds' : list struct_eventfd) :
  eventfd efds reserved initval flags_arg = (Returned r, Some i, efds') ->
  length efds' = length efds /\
  (forall j, j <> i -> nth_error efds' j = nth_error efds j) /\
  (forall j e, (j < i)%nat -> nth_error efds j = Some e ->
               Z.land (flags e) EFD_IN_USE <> 0) /\
  (exists e, nth_error efds i = Some e /\ Z.land (flags e) EFD_IN_USE = 0).
Proof.
  unfold eventfd. cbv zeta.
  destruct (negb _); [discriminate |].
  destruct (find_free efds 0) as [j |] eqn:Ef; [| discriminate].
  destruct (reserved <? 0); [discriminate |].
  intros [= _ <- <-].
  apply find_free_first in Ef. rewrite Nat.sub_0_r in Ef.
  destruct Ef as (_ & Hused & Hfree).
  split; [apply update_nth_length |].
  split; [intros k Hk; now apply update_nth_other |].
  split; assumption.
Qed.

(** X9: ZFD_IOCTL_CLOSE gives the slot back.  It returns 0 and clears the
    flags, leaving the counter as it is; the scan of [eventfd] then finds a
    free slot at or before the closed one, so that the next call with good
    flags and a descriptor claims that slot. *)
Theorem close_frees_slot (self : nat) (efds : list struct_eventfd) (i : nat)
  (efd : struct_eventfd) :
  nth_error efds i = Some efd ->
  exists efd' j,
    eventfd_ioctl_op self efd ZFD_IOCTL_CLOSE = Some (Returned 0, efd', None) /\
    flags efd' = 0 /\ cnt efd' = cnt efd /\
    (j <= i)%nat /\
    find_free (update_nth efds i efd') 0 = Some j /\
    forall reserved initval flags_arg,
      Z.land flags_arg (Z.lnot EFD_FLAGS_SET) = 0 -> 0 <= reserved ->
      exists efds',
        eventfd (update_nth efds i efd') reserved initval flags_arg =
          (Returned reserved, Some j, efds').
Proof.
  intros Hn.
  assert (Hlen : (i < length efds)%nat).
  { apply nth_error_Some. rewrite Hn. discriminate. }
  destruct (find_free_before (update_nth efds i (set_flags efd 0)) 0 i
              (set_flags efd 0)) as (j & Hj & Hf).
  { now apply update_nth_same. }
  { reflexivity. }
  exists (set_flags efd 0), j. cbn [Nat.add] in Hf.
  repeat split; auto.
  intros reserved initval flags_arg Hvalid Hr.
  eexists. now apply eventfd_succeeds.
Qed.

(** *** The two semaphores between calls *)

Lemma give_binary (sem : k_sem) :
  binary_sem sem -> binary_sem (k_sem_give sem) /\ count (k_sem_give sem) = 1.
Proof.
  unfold binary_sem, k_sem_give. intros [Hl Hc].
  destruct (count sem <? limit sem) eqn:E; cbn [count limit].
  - apply Z.ltb_lt in E. lia.
  - apply Z.ltb_ge in E. lia.
Qed.

Lemma take_forever_binary (sem sem' : k_sem) :
  binary_sem sem -> k_sem_take_forever sem = Some sem' ->
  sem' = k_sem_init 0 1.
Proof.
  unfold binary_sem, k_sem_take_forever, k_sem_init. intros [Hl Hc].
  destruct (0 <? count sem) eqn:E; [| discriminate].
  apply Z.ltb_lt in E. intros [= <-]. f_equal; lia.
Qed.

Lemma read_loop_write_sem fuel : forall nonblock count0 efd o c efd',
  eventfd_read_loop fuel nonblock count0 efd = Some (o, c, efd') ->
  write_sem efd' = write_sem efd.
Proof.
  induction fuel as [| fuel IH]; intros nonblock count0 efd o c efd';
    [discriminate |].
  rewrite read_loop_S. unfold eventfd_read_locked.
  destruct (nonblock && (cnt efd =? 0)); [now intros [= _ _ <-] |].
  destruct (cnt efd =? 0).
  - destruct (k_sem_take_forever (read_sem efd)) as [s |].
    + intros H. apply IH in H. exact H.
    + now intros [= _ _ <-].
  - cbv zeta. intros [= _ _ <-]. now destruct (negb _).
Qed.

Lemma read_op_write_sem fuel efd buf sz o buf' efd' :
  eventfd_read_op fuel efd buf sz = Some (o, buf', efd') ->
  (forall r, o = Returned r -> write_sem efd' = k_sem_give (write_sem efd)) /\
  ((forall r, o <> Returned r) -> write_sem efd' = write_sem efd).
Proof.
  unfold eventfd_read_op.
  destruct (sz <? sizeof_eventfd_t).
  { intros [= <- _ <-]. split; [discriminate | reflexivity]. }
  cbv zeta.
  destruct (eventfd_read_loop _ _ _ _) as [[[o1 c1] efd1] |] eqn:L; [| discriminate].
  apply read_loop_write_sem in L. cbn [write_sem set_read_sem] in L.
  destruct o1; intros [= <- _ <-]; cbn [write_sem set_write_sem]; split;
    try discriminate; auto.
  - intros r0 _. now rewrite L.
  - intros H. now elim (H sizeof_eventfd_t).
Qed.

Lemma write_loop_write_sem fuel : forall nonblock count0 efd o efd',
  binary_sem (write_sem efd) ->
  eventfd_write_loop fuel nonblock count0 efd = Some (o, efd') ->
  binary_sem (write_sem efd').
Proof.
  induction fuel as [| fuel IH]; intros nonblock count0 efd o efd' Hb;
    [discriminate |].
  rewrite write_loop_S. unfold eventfd_write_locked.
  destruct (nonblock && _); [now intros [= _ <-] |].
  destruct (UINT64_MAX - count0 <=? cnt efd).
  - destruct (k_sem_take_forever (write_sem efd)) as [s |] eqn:T.
    + apply IH. cbn [write_sem set_write_sem].
      rewrite (take_forever_binary _ _ Hb T). unfold binary_sem, k_sem_init.
      cbn [count limit]. lia.
    + now intros [= _ <-].
  - now intros [= _ <-].
Qed.

Lemma write_op_write_sem fuel efd buf sz o efd' :
  binary_sem (write_sem efd) ->
  eventfd_write_op fuel efd buf sz = Some (o, efd') ->
  binary_sem (write_sem efd').
Proof.
  intros Hb. unfold eventfd_write_op.
  destruct (sz <? sizeof_eventfd_t); [now intros [= _ <-] |].
  cbv zeta.
  destruct (buf =? UINT64_MAX); [now intros [= _ <-] |].
  destruct (buf =? 0); [now intros [= _ <-] |].
  destruct (eventfd_write_loop _ _ _ _) as [[o1 efd1] |] eqn:L; [| discriminate].
  apply write_loop_write_sem in L; [| exact Hb].
  destruct o1; now intros [= _ <-].
Qed.

Lemma reachable_write_sem (efd : struct_eventfd) :
  reachable efd -> binary_sem (write_sem efd).
Proof.
  induction 1 as [efds reserved initval flags_arg r i efds' efd Hcreate Hnth
                 | fuel efd buf sz o buf' efd' _ IH Hread
                 | fuel efd buf sz o efd' _ IH Hbuf Hwrite
                 | self efd request o efd' m _ IH Hioctl].
  - apply eventfd_success in Hcreate.
    destruct Hcreate as (_ & _ & _ & _ & Hn).
    rewrite Hn in Hnth. injection Hnth as <-.
    unfold binary_sem, efd_created, k_sem_init. cbn [write_sem count limit]. lia.
  - apply read_op_write_sem in Hread. destruct Hread as [Hret Hother].
    destruct o as [r | e |].
    + rewrite (Hret r eq_refl). now apply give_binary.
    + rewrite Hother; [exact IH | discriminate].
    + rewrite Hother; [exact IH | discriminate].
  - eapply write_op_write_sem; eassumption.
  - destruct request; cbn [eventfd_ioctl_op] in Hioctl.
    + now injection Hioctl as _ <- _.
    + destruct (negb _); now injection Hioctl as _ <- _.
    + now injection Hioctl as _ <- _.
    + destruct (eventfd_poll_prepare self m0 pev_end) as [[o1 m1] |];
        [now injection Hioctl as _ <- _ | discriminate].
    + destruct (eventfd_poll_update m0) as [[o1 m1] |];
        [now injection Hioctl as _ <- _ | discriminate].
    + now injection Hioctl as _ <- _.
Qed.

Lemma read_sem_reset (efd : struct_eventfd) :
  read_sem efd = k_sem_init 0 1 ->
  set_read_sem efd (k_sem_take_no_wait (read_sem efd)) = efd.
Proof.
  destruct efd as [rs ws c f]. cbn [read_sem]. intros ->. reflexivity.
Qed.

(** A read of an empty object on which [read_sem] is not asserted changes
    nothing. *)
Lemma read_of_empty_object (fuel : nat) (efd : struct_eventfd) (buf sz : Z) :
  sizeof_eventfd_t <= sz -> cnt efd = 0 ->
  read_sem_tracks_cnt efd ->
  (Z.land (flags efd) EFD_NONBLOCK <> 0 ->
   eventfd_read_op (S fuel) efd buf sz = Some (Failed EAGAIN, buf, efd)) /\
  (Z.land (flags efd) EFD_NONBLOCK = 0 ->
   eventfd_read_op (S fuel) efd buf sz = Some (Suspended, buf, efd)).
Proof.
  intros Hsz Hc Ht. unfold read_sem_tracks_cnt in Ht. rewrite Hc in Ht.
  cbn [Z.eqb] in Ht. split; intros Hnb.
  - rewrite read_op_zero_nonblock by assumption. now rewrite read_sem_reset.
  - rewrite read_op_zero_blocks; try assumption.
    + now rewrite read_sem_reset.
    + rewrite Ht. cbn. lia.
Qed.


(** X10: between calls the two semaphores are binary signals, and
    [read_sem] is asserted exactly when the counter is not zero: in every
    state an object reaches from its creation through reads, writes and
    ioctl requests. *)
Theorem signals_track_counter (efd : struct_eventfd) :
  reachable efd ->
  (asserted (read_sem efd) = true <-> cnt efd <> 0) /\
  binary_sem (read_sem efd) /\
  binary_sem (write_sem efd).
Proof.
  intros Hreach.
  pose proof (reachable_tracks _ Hreach) as Ht.
  pose proof (reachable_write_sem _ Hreach) as Hw.
  unfold read_sem_tracks_cnt in Ht. rewrite Ht.
  unfold asserted, binary_sem, k_sem_init. cbn [count limit].
  destruct Hw as [Hwl Hwc].
  destruct (cnt efd =? 0) eqn:E.
  - apply Z.eqb_eq in E.
    split; [| split; [split; lia | split; [exact Hwl | exact Hwc]]].
    split; [discriminate | intros H; now elim H].
  - apply Z.eqb_neq in E.
    split; [| split; [split; lia | split; [exact Hwl | exact Hwc]]].
    split; [intros _; exact E | reflexivity].
Qed.

(** X11: a read that returns leaves [write_sem] asserted, on every object
    reached through calls: a writer parked on an overflow finds the unit
    that wakes it. *)
Theorem read_leaves_write_signal_asserted (fuel : nat) (efd : struct_eventfd)
  (buf sz r buf' : Z) (efd' : struct_eventfd) :
  reachable efd ->
  eventfd_read_op fuel efd buf sz = Some (Returned r, buf', efd') ->
  asserted (write_sem efd') = true /\ count (write_sem efd') = 1.
Proof.
  intros Hreach Hread.
  apply reachable_write_sem in Hreach.
  apply read_op_write_sem in Hread. destruct Hread as [Hret _].
  rewrite (Hret r eq_refl).
  destruct (give_binary _ Hreach) as [_ Hone].
  unfold asserted. rewrite Hone. auto.
Qed.

(** X12: a second read finds the object empty.  In default mode, on an
    object reached through calls whose counter is not zero, a read returns
    the counter; a read that follows at once fails with EAGAIN when
    [EFD_NONBLOCK] is set and leaves its caller suspended otherwise, and in
    both cases leaves the object and the buffer as they are. *)
Theorem second_read_finds_object_empty (fuel : nat) (efd : struct_eventfd)
  (buf sz : Z) :
  reachable efd ->
  Z.land (flags efd) EFD_SEMAPHORE = 0 ->
  sizeof_eventfd_t <= sz ->
  cnt efd <> 0 ->
  exists efd1,
    eventfd_read_op (S fuel) efd buf sz = Some (Returned 8, cnt efd, efd1) /\
    cnt efd1 = 0 /\
    (Z.land (flags efd) EFD_NONBLOCK <> 0 ->
     eventfd_read_op (S fuel) efd1 (cnt efd) sz =
       Some (Failed EAGAIN, cnt efd, efd1)) /\
    (Z.land (flags efd) EFD_NONBLOCK = 0 ->
     eventfd_read_op (S fuel) efd1 (cnt efd) sz =
       Some (Suspended, cnt efd, efd1)).
Proof.
  intros Hreach Hmode Hsz Hc.
  destruct (read_op_nonzero fuel efd buf sz Hsz Hc) as (efd1 & Hr & Hcnt & Hfl).
  rewrite Hmode in Hr, Hcnt. cbn [Z.eqb negb] in Hr, Hcnt.
  rewrite Z.sub_diag in Hcnt. change (u64 0) with 0 in Hcnt.
  assert (Hreach1 : reachable efd1) by (eapply reach_read; eassumption).
  apply reachable_tracks in Hreach1.
  destruct (read_of_empty_object fuel efd1 (cnt efd) sz Hsz Hcnt Hreach1)
    as [Hnb Hb].
  rewrite Hfl in Hnb, Hb.
  exists efd1. auto.
Qed.

(** X13: a blocking write that would overflow.  On an object reached
    through calls with [EFD_NONBLOCK] clear, a write of [v] with
    [UINT64_MAX - v <= cnt] leaves its caller suspended; it has changed
    neither the counter nor the flags, has not given [read_sem], and has
    used up the unit of [write_sem] if there was one (one pass of the loop
    more). *)
Theorem blocking_write_overflow_suspends (fuel : nat) (efd : struct_eventfd)
  (v sz : Z) :
  reachable efd ->
  Z.land (flags efd) EFD_NONBLOCK = 0 ->
  sizeof_eventfd_t <= sz ->
  0 < v < UINT64_MAX ->
  UINT64_MAX - v <= cnt efd ->
  eventfd_write_op (S (S fuel)) efd v sz =
    Some (Suspended, set_write_sem efd (k_sem_init 0 1)).
Proof.
  intros Hreach Hb Hsz Hv Hover.
  apply reachable_write_sem in Hreach. destruct Hreach as [Hl Hcount].
  unfold eventfd_write_op.
  destruct (sz <? sizeof_eventfd_t) eqn:E1; [apply Z.ltb_lt in E1; lia |].
  cbv zeta.
  destruct (v =? UINT64_MAX) eqn:E2; [apply Z.eqb_eq in E2; lia |].
  destruct (v =? 0) eqn:E3; [apply Z.eqb_eq in E3; lia |].
  rewrite Hb. cbn [Z.eqb negb].
  apply Z.leb_le in Hover.
  rewrite write_loop_S. unfold eventfd_write_locked.
  rewrite Hover. cbn [andb].
  destruct efd as [rs [wc wl] c f]. cbn [write_sem count limit cnt] in *.
  subst wl. unfold k_sem_take_forever, k_sem_init. cbn [count limit].
  destruct (0 <? wc) eqn:Ew.
  - apply Z.ltb_lt in Ew. assert (wc = 1) by lia. subst wc.
    unfold set_write_sem. cbn [read_sem write_sem cnt flags].
    change (1 - 1) with 0.
    rewrite write_loop_S. unfold eventfd_write_locked.
    cbn [cnt write_sem]. rewrite Hover. cbn [andb].
    unfold k_sem_take_forever. cbn [write_sem count]. reflexivity.
  - apply Z.ltb_ge in Ew. assert (wc = 0) by lia. subst wc.
    reflexivity.
Qed.

(** X14: a F_SETFL request that returns 0 decides the mode of the calls
    that follow, whatever the flags were before: the next read of a
    counter [c > 0] gives 1 when the new flags hold [EFD_SEMAPHORE] and [c]
    otherwise, and the next read of an empty object fails with EAGAIN when
    they hold [EFD_NONBLOCK]. *)
Theorem setfl_switches_read_mode (self fuel : nat) (efd : struct_eventfd)
  (new_flags buf sz : Z) :
  Z.land new_flags (Z.lnot EFD_FLAGS_SET) = 0 ->
  sizeof_eventfd_t <= sz ->
  0 <= cnt efd <= UINT64_MAX ->
  exists efd1,
    eventfd_ioctl_op self efd (F_SETFL new_flags) = Some (Returned 0, efd1, None) /\
    (cnt efd <> 0 ->
     exists efd2,
       eventfd_read_op (S fuel) efd1 buf sz =
         Some (Returned 8,
               (if Z.land new_flags EFD_SEMAPHORE =? 0 then cnt efd else 1),
               efd2)) /\
    (cnt efd = 0 -> Z.land new_flags EFD_NONBLOCK <> 0 ->
     exists efd2,
       eventfd_read_op (S fuel) efd1 buf sz = Some (Failed EAGAIN, buf, efd2)).
Proof.
  intros Hvalid Hsz Hc.
  exists (set_flags efd new_flags). cbn [eventfd_ioctl_op].
  rewrite Hvalid. cbn [Z.eqb negb]. split; [reflexivity |]. split.
  - intros Hnz.
    destruct (read_op_nonzero fuel (set_flags efd new_flags) buf sz Hsz Hnz)
      as (efd2 & Hr & _).
    cbn [flags cnt set_flags] in Hr. exists efd2. rewrite Hr.
    now destruct (Z.land new_flags EFD_SEMAPHORE =? 0).
  - intros Hz Hnb. eexists.
    now apply read_op_zero_nonblock.
Qed.

(** *** Registering with the poller *)

Lemma store_nth_spec {A : Type} (x : A) : forall (l : list A) n,
  (n < length l)%nat ->
  exists l',
    store_nth l n x = Some l' /\
    length l' = length l /\
    nth_error l' n = Some x /\
    forall j, j <> n -> nth_error l' j = nth_error l j.
Proof.
  induction l as [| h t IH]; intros n Hn; cbn [length] in Hn; [lia |].
  destruct n as [| n]; cbn [store_nth].
  - eexists. split; [reflexivity |]. repeat split.
    intros j Hj. destruct j; [now elim Hj | reflexivity].
  - destruct (IH n) as (l' & Hs & Hlen & Hsame & Hother); [lia |].
    rewrite Hs. cbn [option_map]. eexists. split; [reflexivity |].
    cbn [length nth_error]. split; [now rewrite Hlen |]. split; [exact Hsame |].
    intros j Hj. destruct j; [reflexivity |].
    cbn [nth_error]. apply Hother. intros ->. now elim Hj.
Qed.

(** X16: [eventfd_poll_prepare].  Without POLLIN in [events] it returns 0
    and writes nothing, also when the array is full.  With POLLIN and the
    cursor at the end of the array it fails with ENOMEM and writes nothing.
    With POLLIN and room, it returns 0, binds the event under the cursor to
    the [read_sem] of this object (type "semaphore available", mode "notify
    only", state "not ready"), moves the cursor one event forward and
    leaves the other events, the size of the array and the [zsock_pollfd]
    as they are. *)
Theorem poll_prepare_binds_slot (self : nat) (m : poll_mem) (pev_end : nat) :
  (Z.land (events (pfd m)) ZSOCK_POLLIN = 0 ->
   eventfd_poll_prepare self m pev_end = Some (Returned 0, m)) /\
  (Z.land (events (pfd m)) ZSOCK_POLLIN <> 0 -> pev m = pev_end ->
   eventfd_poll_prepare self m pev_end = Some (Failed ENOMEM, m)) /\
  (Z.land (events (pfd m)) ZSOCK_POLLIN <> 0 -> pev m <> pev_end ->
   (pev m < length (pevs m))%nat ->
   exists m',
     eventfd_poll_prepare self m pev_end = Some (Returned 0, m') /\
     pfd m' = pfd m /\
     pev m' = S (pev m) /\
     length (pevs m') = length (pevs m) /\
     nth_error (pevs m') (pev m) =
       Some {| obj := Some self;
               type := K_POLL_TYPE_SEM_AVAILABLE;
               mode := K_POLL_MODE_NOTIFY_ONLY;
               state := K_POLL_STATE_NOT_READY |} /\
     forall j, j <> pev m -> nth_error (pevs m') j = nth_error (pevs m) j).
Proof.
  unfold eventfd_poll_prepare. split; [| split].
  - intros H. now rewrite H.
  - intros H ->. apply Z.eqb_neq in H. rewrite H. cbn [negb].
    now rewrite Nat.eqb_refl.
  - intros H Hne Hlt. apply Z.eqb_neq in H. rewrite H. cbn [negb].
    apply Nat.eqb_neq in Hne. rewrite Hne.
    destruct (store_nth_spec
                {| obj := Some self;
                   type := K_POLL_TYPE_SEM_AVAILABLE;
                   mode := K_POLL_MODE_NOTIFY_ONLY;
                   state := K_POLL_STATE_NOT_READY |} (pevs m) (pev m) Hlt)
      as (l' & Hs & Hlen & Hsame & Hother).
    rewrite Hs. eexists. split; [reflexivity |].
    cbn [pfd pev pevs]. auto.
Qed.

(** *** Default mode *)

(** The missing header is taken to keep the flag [EFD_IN_USE], which is the
    file's own, apart from the two mode flags. *)
Hypothesis in_use_semaphore : Z.land EFD_IN_USE EFD_SEMAPHORE = 0.

Lemma default_read (fuel : nat) (efd : struct_eventfd) (buf sz : Z) :
  Z.land (flags efd) EFD_SEMAPHORE = 0 ->
  sizeof_eventfd_t <= sz -> cnt efd <> 0 ->
  exists efd',
    eventfd_read_op (S fuel) efd buf sz = Some (Returned 8, cnt efd, efd') /\
    cnt efd' = 0 /\ flags efd' = flags efd.
Proof.
  intros Hmode Hsz Hc.
  destruct (read_op_nonzero fuel efd buf sz Hsz Hc) as (efd' & Hr & Hcnt & Hfl).
  rewrite Hmode in Hr, Hcnt. cbn [Z.eqb negb] in Hr, Hcnt.
  exists efd'. split; [exact Hr |]. split; [| exact Hfl].
  now rewrite Hcnt, Z.sub_diag.
Qed.

(** A write followed by a read, in default mode: the read returns the sum
    of the counter before the write and of the value written. *)
Lemma write_then_read_returns_sum (fuel fuel' : nat) (efd : struct_eventfd)
  (v buf sz sz' : Z) :
  Z.land (flags efd) EFD_SEMAPHORE = 0 ->
  sizeof_eventfd_t <= sz -> sizeof_eventfd_t <= sz' ->
  0 <= cnt efd -> 0 < v -> cnt efd < UINT64_MAX - v ->
  exists efd1 efd2,
    eventfd_write_op (S fuel) efd v sz = Some (Returned 8, efd1) /\
    eventfd_read_op (S fuel') efd1 buf sz' = Some (Returned 8, cnt efd + v, efd2) /\
    cnt efd2 = 0 /\ flags efd2 = flags efd.
Proof.
  intros Hmode Hsz Hsz' Hc Hv Hfit.
  eexists. 
  destruct (default_read fuel'
              (set_read_sem (set_cnt efd (cnt efd + v)) (k_sem_give (read_sem efd)))
              buf sz') as (efd2 & Hr & Hcnt & Hfl); cbn [cnt flags set_read_sem set_cnt];
    auto; [lia |].
  exists efd2. split; [apply write_op_fits; auto; lia |].
  cbn [cnt flags set_read_sem set_cnt] in Hr, Hfl. auto.
Qed.

(** C2: in default mode, a read of an object whose counter is [c <> 0]
    returns 8 with [c] in the buffer and leaves the counter at 0; a write of
    [v], [0 < v < UINT64_MAX], to an object whose counter is 0 followed by a
    read gives back [v]; and a read of an object just created with a
    non-zero initial value that fits the parameter type [unsigned int]
    gives back that value and leaves the counter at 0.  (With a counter of
    [c] before the write the read gives back [c + v], see
    [write_then_read_returns_sum]; a wider initial value is reduced modulo
    2^32 at the call.) *)
Theorem default_mode_read_drains :
  (forall (fuel : nat) efd buf sz c,
     Z.land (flags efd) EFD_SEMAPHORE = 0 ->
     sizeof_eventfd_t <= sz ->
     cnt efd = c -> c <> 0 ->
     exists efd',
       eventfd_read_op (S fuel) efd buf sz = Some (Returned 8, c, efd') /\
       cnt efd' = 0 /\ flags efd' = flags efd) /\
  (forall (fuel fuel' : nat) efd v buf sz sz',
     Z.land (flags efd) EFD_SEMAPHORE = 0 ->
     sizeof_eventfd_t <= sz -> sizeof_eventfd_t <= sz' ->
     cnt efd = 0 -> 0 < v < UINT64_MAX ->
     exists efd1 efd2,
       eventfd_write_op (S fuel) efd v sz = Some (Returned 8, efd1) /\
       eventfd_read_op (S fuel') efd1 buf sz' = Some (Returned 8, v, efd2) /\
       cnt efd2 = 0) /\
  (forall (fuel : nat) efds reserved initval flags_arg r i efds' buf sz,
     Z.land flags_arg EFD_SEMAPHORE = 0 ->
     0 < initval <= UINT_MAX ->
     sizeof_eventfd_t <= sz ->
     eventfd efds reserved initval flags_arg = (Returned r, Some i, efds') ->
     exists efd efd',
       nth_error efds' i = Some efd /\
       eventfd_read_op (S fuel) efd buf sz = Some (Returned 8, initval, efd') /\
       cnt efd' = 0).
Proof.
  split; [| split].
  - intros fuel efd buf sz c Hmode Hsz <- Hc.
    now apply default_read.
  - intros fuel fuel' efd v buf sz sz' Hmode Hsz Hsz' Hc Hv.
    destruct (write_then_read_returns_sum fuel fuel' efd v buf sz sz')
      as (efd1 & efd2 & Hw & Hr & Hcnt & _); auto; try lia.
    rewrite Hc in Hr. exists efd1, efd2. auto.
  - intros fuel efds reserved initval flags_arg r i efds' buf sz Hmode Hi Hsz H.
    apply eventfd_success in H. destruct H as (_ & _ & _ & _ & Hn).
    rewrite unsigned_int_small in Hn by lia.
    destruct (default_read fuel (efd_created initval flags_arg) buf sz)
      as (efd' & Hr & Hcnt & _); cbn [efd_created cnt flags]; auto; try lia.
    + now rewrite Z.land_lor_distr_l, in_use_semaphore, Hmode.
    + exists (efd_created initval flags_arg), efd'. auto.
Qed.

(** *** F_SETFL *)

Hypothesis in_use_nonblock : Z.land EFD_IN_USE EFD_NONBLOCK = 0.

Lemma in_use_outside_flags_set : Z.land EFD_IN_USE EFD_FLAGS_SET = 0.
Proof.
  unfold EFD_FLAGS_SET.
  now rewrite Z.land_lor_distr_r, in_use_semaphore, in_use_nonblock.
Qed.

Lemma setfl_stores_flags_only (efd : struct_eventfd) (new_flags : Z) :
  Z.land new_flags (Z.lnot EFD_FLAGS_SET) = 0 ->
  flags (set_flags efd new_flags) = new_flags /\
  Z.land (flags (set_flags efd new_flags)) EFD_IN_USE = 0.
Proof.
  intros Hvalid. cbn [flags set_flags]. split; [reflexivity |].
  apply land_subset_disjoint with (b := EFD_FLAGS_SET); [exact Hvalid |].
  exact in_use_outside_flags_set.
Qed.

(** C1: a F_SETFL request whose flags all lie in [EFD_FLAGS_SET] returns 0
    and stores exactly these flags; since [EFD_IN_USE] lies outside
    [EFD_FLAGS_SET], the bit [EFD_IN_USE] is clear afterwards, also on an
    object that had it set. *)
Theorem setfl_clears_in_use (self : nat) (efd : struct_eventfd) (new_flags : Z) :
  Z.land new_flags (Z.lnot EFD_FLAGS_SET) = 0 ->
  exists efd',
    eventfd_ioctl_op self efd (F_SETFL new_flags) = Some (Returned 0, efd', None) /\
    flags efd' = new_flags /\
    cnt efd' = cnt efd /\
    Z.land (flags efd') EFD_IN_USE = 0.
Proof.
  intros Hvalid. cbn [eventfd_ioctl_op].
  rewrite Hvalid. cbn [Z.eqb negb].
  eexists. split; [reflexivity |].
  cbn [flags cnt set_flags]. repeat split.
  apply land_subset_disjoint with (b := EFD_FLAGS_SET); [exact Hvalid |].
  exact in_use_outside_flags_set.
Qed.

(** After such a request the scan of [eventfd] takes the slot for free. *)
Lemma setfl_frees_slot (self : nat) (efd : struct_eventfd) (new_flags : Z)
  (rest : list struct_eventfd) o efd' m :
  Z.land new_flags (Z.lnot EFD_FLAGS_SET) = 0 ->
  eventfd_ioctl_op self efd (F_SETFL new_flags) = Some (o, efd', m) ->
  find_free (efd' :: rest) 0 = Some 0%nat.
Proof.
  intros Hvalid H.
  destruct (setfl_stores_flags_only efd new_flags Hvalid) as [Hf Hu].
  cbn [eventfd_ioctl_op] in H. rewrite Hvalid in H. cbn [Z.eqb negb] in H.
  injection H as _ <- _.
  cbn [find_free]. rewrite Hu. reflexivity.
Qed.

(** *** The flags seen through F_GETFL *)

Lemma land_inside (a b : Z) : Z.land a (Z.lnot b) = 0 -> Z.land a b = a.
Proof.
  intros Hab. rewrite <- Z.ldiff_land in Hab.
  rewrite <- (Z.lor_ldiff_and a b) at 2. now rewrite Hab, Z.lor_0_l.
Qed.

(** X17: F_GETFL gives back the flags the caller chose and nothing else:
    on the object of a call [eventfd(initval, flags)] that claimed a slot
    it returns [flags]; after a F_SETFL request that returned 0 it returns
    the flags of that request; and what it returns never holds
    [EFD_IN_USE].  It leaves the object as it is. *)
Theorem getfl_returns_mode_flags (self : nat) :
  (forall efds reserved initval flags_arg r i efds',
     eventfd efds reserved initval flags_arg = (Returned r, Some i, efds') ->
     exists efd,
       nth_error efds' i = Some efd /\
       eventfd_ioctl_op self efd F_GETFL = Some (Returned flags_arg, efd, None)) /\
  (forall efd new_flags efd',
     eventfd_ioctl_op self efd (F_SETFL new_flags) = Some (Returned 0, efd', None) ->
     eventfd_ioctl_op self efd' F_GETFL = Some (Returned new_flags, efd', None)) /\
  (forall efd v efd' m,
     eventfd_ioctl_op self efd F_GETFL = Some (Returned v, efd', m) ->
     Z.land v EFD_IN_USE = 0 /\ efd' = efd).
Proof.
  split; [| split].
  - intros efds reserved initval flags_arg r i efds' H.
    apply eventfd_success in H. destruct H as (_ & _ & Hvalid & _ & Hn).
    eexists. split; [exact Hn |].
    cbn [eventfd_ioctl_op efd_created flags].
    rewrite Z.land_lor_distr_l, in_use_outside_flags_set, Z.lor_0_l.
    now rewrite (land_inside _ _ Hvalid).
  - intros efd new_flags efd'. cbn [eventfd_ioctl_op].
    destruct (Z.land new_flags (Z.lnot EFD_FLAGS_SET) =? 0) eqn:E;
      cbn [negb]; [| discriminate].
    apply Z.eqb_eq in E. intros [= <-]. cbn [flags set_flags].
    now rewrite (land_inside _ _ E).
  - intros efd v efd' m. cbn [eventfd_ioctl_op]. intros [= <- <- _].
    split; [| reflexivity].
    rewrite <- Z.land_assoc, (Z.land_comm EFD_FLAGS_SET),
      in_use_outside_flags_set.
    apply Z.land_0_r.
Qed.

(** *** Polling *)

(** The two poll events are taken to be distinct, non-empty bit masks. *)
Hypothesis pollin_nonzero : ZSOCK_POLLIN <> 0.
Hypothesis pollout_nonzero : ZSOCK_POLLOUT <> 0.
Hypothesis pollin_pollout : Z.land ZSOCK_POLLIN ZSOCK_POLLOUT = 0.

Lemma land_lor_pollout (a b : Z) :
  (a = ZSOCK_POLLOUT \/ a = 0) -> (b = ZSOCK_POLLIN \/ b = 0) ->
  Z.land (Z.lor a b) ZSOCK_POLLOUT = a.
Proof.
  intros Ha Hb. rewrite Z.land_lor_distr_l.
  assert (Hb0 : Z.land b ZSOCK_POLLOUT = 0).
  { destruct Hb as [-> | ->]; [exact pollin_pollout | apply Z.land_0_l]. }
  rewrite Hb0, Z.lor_0_r.
  destruct Ha as [-> | ->]; [apply Z.land_diag | apply Z.land_0_l].
Qed.

Lemma land_lor_pollin (a b : Z) :
  (a = ZSOCK_POLLOUT \/ a = 0) -> (b = ZSOCK_POLLIN \/ b = 0) ->
  Z.land (Z.lor a b) ZSOCK_POLLIN = b.
Proof.
  intros Ha Hb. rewrite Z.land_lor_distr_l.
  assert (Ha0 : Z.land a ZSOCK_POLLIN = 0).
  { destruct Ha as [-> | ->];
      [rewrite Z.land_comm; exact pollin_pollout | apply Z.land_0_l]. }
  rewrite Ha0, Z.lor_0_l.
  destruct Hb as [-> | ->]; [apply Z.land_diag | apply Z.land_0_l].
Qed.

(** [eventfd_poll_prepare] with POLLIN asked for: no room at the end of the
    array is ENOMEM; otherwise the event under the cursor is bound to the
    object's [read_sem] in the state "not ready" and the cursor moves on. *)
Lemma poll_prepare_registers (self : nat) (m : poll_mem) (pev_end : nat) :
  Z.land (events (pfd m)) ZSOCK_POLLIN <> 0 ->
  (pev m = pev_end ->
   eventfd_poll_prepare self m pev_end = Some (Failed ENOMEM, m)) /\
  (pev m <> pev_end -> (pev m < length (pevs m))%nat ->
   exists m',
     eventfd_poll_prepare self m pev_end = Some (Returned 0, m') /\
     pfd m' = pfd m /\ pev m' = S (pev m) /\
     exists ev,
       nth_error (pevs m') (pev m) = Some ev /\
       obj ev = Some self /\ state ev = K_POLL_STATE_NOT_READY).
Proof.
  intros Hin. apply Z.eqb_neq in Hin.
  unfold eventfd_poll_prepare. rewrite Hin. cbn [negb].
  split.
  - intros ->. now rewrite Nat.eqb_refl.
  - intros Hne Hlt. apply Nat.eqb_neq in Hne. rewrite Hne.
    set (ev := {| obj := Some self;
                  type := K_POLL_TYPE_SEM_AVAILABLE;
                  mode := K_POLL_MODE_NOTIFY_ONLY;
                  state := K_POLL_STATE_NOT_READY |}).
    assert (Hstore : forall (l : list k_poll_event) n,
               (n < length l)%nat ->
               exists l', store_nth l n ev = Some l' /\ nth_error l' n = Some ev).
    { induction l as [| h t IH]; intros n Hn; cbn [length] in Hn; [lia |].
      destruct n as [| n]; cbn [store_nth].
      - eexists. split; reflexivity.
      - destruct (IH n) as (l' & Hs & Hl'); [lia |].
        rewrite Hs. eexists. split; [reflexivity | exact Hl']. }
    destruct (Hstore (pevs m) (pev m) Hlt) as (l' & Hs & Hl').
    rewrite Hs. eexists. split; [reflexivity |].
    cbn [pfd pev pevs]. repeat split.
    exists ev. auto.
Qed.

(** C9: [eventfd_poll_update] returns 0 and ORs into [revents] a mask that
    holds POLLOUT exactly when POLLOUT was asked for in [events]; when
    POLLIN was asked for, the mask holds POLLIN exactly when the state of
    the event under the cursor is not K_POLL_STATE_NOT_READY, and the
    cursor moves one event forward; when POLLIN was not asked for, no event
    is looked at, POLLIN is not reported and the cursor stays.  With
    [revents] cleared before the call, [revents] is that mask afterwards.
    The request ZFD_IOCTL_POLL_UPDATE gives this result on every object,
    whatever its counter, and leaves the object as it is. *)
Theorem poll_update_reports (m : poll_mem) (ev : k_poll_event) :
  (Z.land (events (pfd m)) ZSOCK_POLLIN <> 0 ->
   nth_error (pevs m) (pev m) = Some ev) ->
  let want_out := negb (Z.land (events (pfd m)) ZSOCK_POLLOUT =? 0) in
  let want_in := negb (Z.land (events (pfd m)) ZSOCK_POLLIN =? 0) in
  let ready := negb (state ev =? K_POLL_STATE_NOT_READY) in
  let reported :=
    Z.lor (if want_out then ZSOCK_POLLOUT else 0)
          (if want_in && ready then ZSOCK_POLLIN else 0) in
  exists m',
    eventfd_poll_update m = Some (Returned 0, m') /\
    revents (pfd m') = Z.lor (revents (pfd m)) reported /\
    events (pfd m') = events (pfd m) /\
    pevs m' = pevs m /\
    (Z.land reported ZSOCK_POLLOUT <> 0 <->
     Z.land (events (pfd m)) ZSOCK_POLLOUT <> 0) /\
    (Z.land (events (pfd m)) ZSOCK_POLLIN <> 0 ->
     (Z.land reported ZSOCK_POLLIN <> 0 <-> state ev <> K_POLL_STATE_NOT_READY) /\
     pev m' = S (pev m)) /\
    (Z.land (events (pfd m)) ZSOCK_POLLIN = 0 ->
     Z.land reported ZSOCK_POLLIN = 0 /\ pev m' = pev m) /\
    (revents (pfd m) = 0 -> revents (pfd m') = reported) /\
    (forall self efd,
       eventfd_ioctl_op self efd (ZFD_IOCTL_POLL_UPDATE m) =
         Some (Returned 0, efd, Some m')).
Proof.
  intros Hslot want_out want_in ready reported.
  assert (Hout : Z.land reported ZSOCK_POLLOUT = if want_out then ZSOCK_POLLOUT else 0).
  { subst reported. apply land_lor_pollout.
    - destruct want_out; auto.
    - destruct (want_in && ready); auto. }
  assert (Hin : Z.land reported ZSOCK_POLLIN =
                if want_in && ready then ZSOCK_POLLIN else 0).
  { subst reported. apply land_lor_pollin.
    - destruct want_out; auto.
    - destruct (want_in && ready); auto. }
  assert (Hrun : exists m',
             eventfd_poll_update m = Some (Returned 0, m') /\
             revents (pfd m') = Z.lor (revents (pfd m)) reported /\
             events (pfd m') = events (pfd m) /\
             pevs m' = pevs m /\
             pev m' = if want_in then S (pev m) else pev m).
  { unfold eventfd_poll_update. cbv zeta.
    fold want_out.
    assert (He : events (if want_out
                         then set_revents (pfd m) (Z.lor (revents (pfd m)) ZSOCK_POLLOUT)
                         else pfd m) = events (pfd m)).
    { now destruct want_out. }
    rewrite He. fold want_in. subst reported.
    destruct want_in eqn:Ein.
    - rewrite Hslot.
      + fold ready. eexists. split; [reflexivity |].
        cbn [pfd pevs pev andb].
        destruct want_out, ready; cbn [revents events set_revents];
          rewrite ?Z.lor_0_l, ?Z.lor_0_r, ?Z.lor_assoc; auto.
      + subst want_in. apply negb_true_iff in Ein. now apply Z.eqb_neq in Ein.
    - eexists. split; [reflexivity |].
      cbn [pfd pevs pev andb].
      destruct want_out; cbn [revents events set_revents];
        rewrite ?Z.lor_0_l, ?Z.lor_0_r; auto. }
  destruct Hrun as (m' & Hupd & Hrev & Hev & Hpevs & Hpev).
  exists m'. repeat (split; [assumption |]).
  split; [| split; [| split; [| split]]].
  - rewrite Hout. subst want_out.
    destruct (Z.land (events (pfd m)) ZSOCK_POLLOUT =? 0) eqn:E; cbn [negb].
    + apply Z.eqb_eq in E. split; intros H; now elim H.
    + apply Z.eqb_neq in E. split; auto.
  - intros Hwant. rewrite Hin, Hpev.
    assert (Ein : want_in = true).
    { subst want_in. apply negb_true_iff. now apply Z.eqb_neq. }
    rewrite Ein. cbn [andb]. split; [| reflexivity].
    subst ready.
    destruct (state ev =? K_POLL_STATE_NOT_READY) eqn:E; cbn [negb].
    + apply Z.eqb_eq in E. split; intros H; now elim H.
    + apply Z.eqb_neq in E. split; auto.
  - intros Hwant. rewrite Hin, Hpev.
    assert (Ein : want_in = false).
    { subst want_in. apply negb_false_iff. now apply Z.eqb_eq. }
    rewrite Ein. cbn [andb]. auto.
  - intros H0. now rewrite Hrev, H0, Z.lor_0_l.
  - intros self efd. cbn [eventfd_ioctl_op]. now rewrite Hupd.
Qed.

(** X18: [eventfd_poll_update] right after [eventfd_poll_prepare].  When
    the prepare call returned 0, an update call run from the same cursor on
    what it left returns 0, leaves the cursor where the prepare call left
    it, and does not report POLLIN: the event is still in the state "not
    ready". *)
Theorem update_follows_prepare (self : nat) (m : poll_mem) (pev_end : nat)
  (m1 : poll_mem) :
  eventfd_poll_prepare self m pev_end = Some (Returned 0, m1) ->
  exists m2,
    eventfd_poll_update {| pfd := pfd m1; pevs := pevs m1; pev := pev m |} =
      Some (Returned 0, m2) /\
    pev m2 = pev m1 /\
    pevs m2 = pevs m1 /\
    Z.land (revents (pfd m2)) ZSOCK_POLLIN = Z.land (revents (pfd m)) ZSOCK_POLLIN.
Proof.
  assert (Hout : forall p : zsock_pollfd,
            Z.land (revents (if negb (Z.land (events p) ZSOCK_POLLOUT =? 0)
                             then set_revents p (Z.lor (revents p) ZSOCK_POLLOUT)
                             else p)) ZSOCK_POLLIN =
            Z.land (revents p) ZSOCK_POLLIN).
  { intros p. destruct (negb _); [| reflexivity].
    cbn [revents set_revents].
    rewrite Z.land_lor_distr_l, (Z.land_comm ZSOCK_POLLOUT), pollin_pollout.
    apply Z.lor_0_r. }
  assert (Hev : forall p : zsock_pollfd,
            events (if negb (Z.land (events p) ZSOCK_POLLOUT =? 0)
                    then set_revents p (Z.lor (revents p) ZSOCK_POLLOUT)
                    else p) = events p).
  { intros p. now destruct (negb _). }
  unfold eventfd_poll_prepare, eventfd_poll_update. cbv zeta.
  cbn [pfd pevs pev].
  destruct (negb (Z.land (events (pfd m)) ZSOCK_POLLIN =? 0)) eqn:Ein.
  - destruct (Nat.eqb (pev m) pev_end); [discriminate |].
    destruct (store_nth (pevs m) (pev m) _) as [l' |] eqn:Hs; [| discriminate].
    intros [= <-]. cbn [pfd pevs pev]. rewrite Hev, Ein.
    assert (Hlt : (pev m < length (pevs m))%nat).
    { clear -Hs. revert Hs. generalize (pev m) as n. generalize l'.
      induction (pevs m) as [| h t IH]; intros l1 n; [discriminate |].
      destruct n; cbn [store_nth length]; [lia |].
      destruct (store_nth t n _) as [l2 |] eqn:E; [| discriminate].
      intros _. specialize (IH _ _ E). lia. }
    destruct (store_nth_spec
                {| obj := Some self;
                   type := K_POLL_TYPE_SEM_AVAILABLE;
                   mode := K_POLL_MODE_NOTIFY_ONLY;
                   state := K_POLL_STATE_NOT_READY |} (pevs m) (pev m) Hlt)
      as (l2 & Hs2 & _ & Hsame & _).
    rewrite Hs in Hs2. injection Hs2 as <-.
    rewrite Hsame. cbn [state]. rewrite Z.eqb_refl. cbn [negb].
    eexists. split; [reflexivity |]. cbn [pfd pevs pev].
    repeat split. apply Hout.
  - intros [= <-]. rewrite Hev, Ein.
    eexists. split; [reflexivity |]. cbn [pfd pevs pev].
    repeat split. apply Hout.
Qed.

(** *** Slots are not handed out twice *)

Hypothesis in_use_nonzero : EFD_IN_USE <> 0.

Lemma eventfd_success_pool efds reserved initval flags_arg r i efds' :
  eventfd efds reserved initval flags_arg = (Returned r, Some i, efds') ->
  find_free efds 0 = Some i /\
  efds' = update_nth efds i (efd_created (unsigned_int initval) flags_arg).
Proof.
  unfold eventfd. cbv zeta.
  destruct (negb _); [discriminate |].
  destruct (find_free efds 0) as [j |]; [| discriminate].
  destruct (reserved <? 0); [discriminate |].
  now intros [= _ <- <-].
Qed.

(** X19: as long as no slot is given back, [eventfd] hands out the slots in
    increasing order and none of them twice: of two calls in a row that
    both claim a slot, the second claims a slot behind that of the first,
    which it finds in use. *)
Theorem eventfd_hands_out_slots_in_order (efds : list struct_eventfd)
  (reserved1 initval1 flags1 r1 : Z) (i1 : nat) (efds1 : list struct_eventfd)
  (reserved2 initval2 flags2 r2 : Z) (i2 : nat) (efds2 : list struct_eventfd) :
  eventfd efds reserved1 initval1 flags1 = (Returned r1, Some i1, efds1) ->
  eventfd efds1 reserved2 initval2 flags2 = (Returned r2, Some i2, efds2) ->
  (i1 < i2)%nat /\
  exists e, nth_error efds1 i1 = Some e /\ Z.land (flags e) EFD_IN_USE <> 0.
Proof.
  intros H1 H2.
  pose proof (eventfd_success _ _ _ _ _ _ _ H1) as (_ & _ & _ & _ & Hn1).
  apply eventfd_success_pool in H1. destruct H1 as [Hf1 ->].
  apply eventfd_success_pool in H2. destruct H2 as [Hf2 _].
  apply find_free_first in Hf1. apply find_free_first in Hf2.
  rewrite Nat.sub_0_r in Hf1, Hf2.
  destruct Hf1 as (_ & Hused1 & _).
  destruct Hf2 as (_ & _ & (e2 & Hn2 & Hfree2)).
  assert (Hclaimed : Z.land (flags (efd_created (unsigned_int initval1) flags1))
                       EFD_IN_USE <> 0).
  { cbn [efd_created flags].
    rewrite Z.land_lor_distr_l, Z.land_diag. intros H0.
    apply Z.lor_eq_0_iff in H0. now destruct H0. }
  split; [| eauto].
  destruct (Nat.lt_trichotomy i2 i1) as [Hlt | [Heq | Hgt]]; [| | exact Hgt].
  - rewrite update_nth_other in Hn2 by lia.
    now elim (Hused1 i2 e2 Hlt Hn2).
  - subst i2. rewrite Hn1 in Hn2. injection Hn2 as <-.
    now elim Hclaimed.
Qed.

End Eventfd.

(** ** The model at work *)

Local Abbreviation create :=
  (eventfd Zephyr.EFD_IN_USE Zephyr.EFD_SEMAPHORE Zephyr.EFD_NONBLOCK).
Local Abbreviation read_op :=
  (eventfd_read_op Zephyr.EFD_SEMAPHORE Zephyr.EFD_NONBLOCK).
Local Abbreviation write_op := (eventfd_write_op Zephyr.EFD_NONBLOCK).
Local Abbreviation ioctl_op :=
  (eventfd_ioctl_op Zephyr.EFD_SEMAPHORE Zephyr.EFD_NONBLOCK
     Zephyr.ZSOCK_POLLIN Zephyr.ZSOCK_POLLOUT
     Zephyr.K_POLL_TYPE_SEM_AVAILABLE Zephyr.K_POLL_MODE_NOTIFY_ONLY
     Zephyr.K_POLL_STATE_NOT_READY).
Local Abbreviation poll_update :=
  (eventfd_poll_update Zephyr.ZSOCK_POLLIN Zephyr.ZSOCK_POLLOUT
     Zephyr.K_POLL_STATE_NOT_READY).
Local Abbreviation fresh := (efd_created Zephyr.EFD_IN_USE).
Local Abbreviation reaches :=
  (reachable Zephyr.EFD_IN_USE Zephyr.EFD_SEMAPHORE Zephyr.EFD_NONBLOCK
     Zephyr.ZSOCK_POLLIN Zephyr.ZSOCK_POLLOUT
     Zephyr.K_POLL_TYPE_SEM_AVAILABLE Zephyr.K_POLL_MODE_NOTIFY_ONLY
     Zephyr.K_POLL_STATE_NOT_READY).

Ltac by_evaluation :=
  first [ vm_compute; reflexivity
        | vm_compute; discriminate
        | vm_compute; intuition discriminate ].

(** C7 at work: a write of 0 to an object holding 5. *)
Lemma write_zero_is_noop_witness :
  sizeof_eventfd_t <= 8 /\
  write_op 1 (fresh 5 0) 0 8 = Some (Returned sizeof_eventfd_t, fresh 5 0).
Proof.
  assert (H : sizeof_eventfd_t <= 8) by by_evaluation.
  split; [exact H | exact (write_zero_is_noop Zephyr.EFD_NONBLOCK 1%nat (fresh 5 0) 8 H)].
Defined.

(** C8 at work: a size of 7, the sentinel, and a read that succeeds. *)
Lemma size_and_sentinel_checks_witness :
  7 < sizeof_eventfd_t /\
  read_op 1 (fresh 5 0) 0 7 = Some (Failed EINVAL, 0, fresh 5 0) /\
  write_op 1 (fresh 5 0) 1 7 = Some (Failed EINVAL, fresh 5 0) /\
  write_op 1 (fresh 5 0) UINT64_MAX 8 = Some (Failed EINVAL, fresh 5 0) /\
  (exists r buf' efd',
     read_op 1 (fresh 5 0) 0 8 = Some (Returned r, buf', efd') /\ r = 8) /\
  (exists r efd',
     write_op 1 (fresh 5 0) 1 8 = Some (Returned r, efd') /\ r = 8).
Proof.
  assert (H : 7 < sizeof_eventfd_t) by by_evaluation.
  split; [exact H |].
  split.
  { exact (proj1 (size_and_sentinel_checks Zephyr.EFD_SEMAPHORE Zephyr.EFD_NONBLOCK 1%nat (fresh 5 0) 0 7) H). }
  split.
  { exact (proj1 (proj2 (size_and_sentinel_checks Zephyr.EFD_SEMAPHORE Zephyr.EFD_NONBLOCK 1%nat (fresh 5 0) 1 7)) H). }
  split.
  { exact (proj1 (proj2 (proj2
             (size_and_sentinel_checks Zephyr.EFD_SEMAPHORE Zephyr.EFD_NONBLOCK 1%nat (fresh 5 0) 0 8)))). }
  split.
  - do 3 eexists. split; [by_evaluation |].
    eapply (proj1 (proj2 (proj2 (proj2
              (size_and_sentinel_checks Zephyr.EFD_SEMAPHORE Zephyr.EFD_NONBLOCK
                 1%nat (fresh 5 0) 0 8))))).
    by_evaluation.
  - do 2 eexists. split; [by_evaluation |].
    eapply (proj2 (proj2 (proj2 (proj2
              (size_and_sentinel_checks Zephyr.EFD_SEMAPHORE Zephyr.EFD_NONBLOCK
                 1%nat (fresh 5 0) 1 8))))).
    by_evaluation.
Defined.

(** C10 at work: a non-blocking read of an empty object, and a non-blocking
    write that would overflow. *)
Lemma failure_keeps_counter_and_flags_witness :
  (exists efd',
     read_op 1 (fresh 0 Zephyr.EFD_NONBLOCK) 7 8 = Some (Failed EAGAIN, 7, efd') /\
     cnt efd' = 0 /\ flags efd' = flags (fresh 0 Zephyr.EFD_NONBLOCK)) /\
  (exists efd',
     write_op 1 (fresh 5 Zephyr.EFD_NONBLOCK) (UINT64_MAX - 5) 8 =
       Some (Failed EAGAIN, efd') /\
     cnt efd' = 5 /\ flags efd' = flags (fresh 5 Zephyr.EFD_NONBLOCK)).
Proof.
  split.
  - assert (E : read_op 1 (fresh 0 Zephyr.EFD_NONBLOCK) 7 8 =
                Some (Failed EAGAIN, 7, fresh 0 Zephyr.EFD_NONBLOCK)) by by_evaluation.
    exists (fresh 0 Zephyr.EFD_NONBLOCK). split; [exact E |].
    destruct (proj1 (failure_keeps_counter_and_flags Zephyr.EFD_SEMAPHORE Zephyr.EFD_NONBLOCK 1%nat
                       (fresh 0 Zephyr.EFD_NONBLOCK) 7 8) _ _ _ E)
      as (_ & Hc & Hf & _).
    split; [exact Hc | exact Hf].
  - assert (E : write_op 1 (fresh 5 Zephyr.EFD_NONBLOCK) (UINT64_MAX - 5) 8 =
                Some (Failed EAGAIN, fresh 5 Zephyr.EFD_NONBLOCK)) by by_evaluation.
    exists (fresh 5 Zephyr.EFD_NONBLOCK). split; [exact E |].
    destruct (proj2 (failure_keeps_counter_and_flags Zephyr.EFD_SEMAPHORE Zephyr.EFD_NONBLOCK 1%nat
                       (fresh 5 Zephyr.EFD_NONBLOCK) (UINT64_MAX - 5) 8) _ _ E)
      as (_ & Hc & Hf).
    split; [exact Hc | exact Hf].
Defined.

(** C4 at work: the object of [eventfd(5, EFD_NONBLOCK)]; a write of
    [UINT64_MAX - 5] meets the boundary and fails with the counter still at
    5, a write of [UINT64_MAX - 6] brings the counter to [UINT64_MAX - 1]. *)
Lemma nonblocking_write_overflow_witness :
  (exists efd',
     write_op 1 (fresh 5 Zephyr.EFD_NONBLOCK) (UINT64_MAX - 5) 8 =
       Some (Failed EAGAIN, efd') /\
     cnt efd' = 5 /\
     flags efd' = flags (fresh 5 Zephyr.EFD_NONBLOCK)) /\
  (exists efd',
     write_op 1 (fresh 5 Zephyr.EFD_NONBLOCK) (UINT64_MAX - 6) 8 =
       Some (Returned 8, efd') /\
     cnt efd' = 5 + (UINT64_MAX - 6) /\
     cnt efd' < UINT64_MAX /\
     flags efd' = flags (fresh 5 Zephyr.EFD_NONBLOCK)).
Proof.
  split.
  - destruct (nonblocking_write_overflow Zephyr.EFD_NONBLOCK 0%nat
                (fresh 5 Zephyr.EFD_NONBLOCK) (UINT64_MAX - 5) 8
                ltac:(by_evaluation) ltac:(by_evaluation)
                ltac:(by_evaluation) ltac:(by_evaluation))
      as (Hover & _ & _).
    destruct Hover as (efd' & Hw & _ & Hc & Hf & _); [by_evaluation |].
    exists efd'. split; [exact Hw |]. split; [exact Hc | exact Hf].
  - destruct (nonblocking_write_overflow Zephyr.EFD_NONBLOCK 0%nat
                (fresh 5 Zephyr.EFD_NONBLOCK) (UINT64_MAX - 6) 8
                ltac:(by_evaluation) ltac:(by_evaluation)
                ltac:(by_evaluation) ltac:(by_evaluation))
      as (_ & Hfit & _).
    destruct Hfit as (efd' & Hw & _ & Hc & Hlt & Hf & _); [by_evaluation |].
    exists efd'. split; [exact Hw |]. split; [exact Hc |].
    split; [exact Hlt | exact Hf].
Defined.

(** C6 against the code: the parameter [initval] is an [unsigned int], so
    the 64-bit value 2^32 reaches the function as 0; the counter is 0, not
    2^32, and [read_sem] is not asserted although the requested value is
    not zero. *)
Lemma create_truncates_wide_initval :
  0 <= 2 ^ 32 <= UINT64_MAX /\
  exists efd,
    create [efd_zero] 3 (2 ^ 32) 0 = (Returned 3, Some 0%nat, [efd]) /\
    cnt efd = 0 /\
    cnt efd <> 2 ^ 32 /\
    asserted (read_sem efd) = false.
Proof.
  split; [by_evaluation |].
  exists (fresh 0 0). repeat split; by_evaluation.
Qed.

(** C6 at work: [eventfd(7, 0)] on a pool of one free slot. *)
Lemma create_initial_state_witness :
  0 <= 7 <= UINT_MAX /\
  create [efd_zero] 3 7 0 = (Returned 3, Some 0%nat, [fresh 7 0]) /\
  exists efd,
    nth_error [fresh 7 0] 0 = Some efd /\
    cnt efd = 7 /\
    (asserted (read_sem efd) = true <-> 7 <> 0) /\
    asserted (write_sem efd) = false /\
    flags efd = Z.lor Zephyr.EFD_IN_USE 0.
Proof.
  assert (Hi : 0 <= 7 <= UINT_MAX) by by_evaluation.
  assert (Hc : create [efd_zero] 3 7 0 = (Returned 3, Some 0%nat, [fresh 7 0]))
    by by_evaluation.
  split; [exact Hi |]. split; [exact Hc |].
  exact (create_initial_state Zephyr.EFD_IN_USE Zephyr.EFD_SEMAPHORE
           Zephyr.EFD_NONBLOCK [efd_zero] 3 7 0 3 0%nat [fresh 7 0] Hi Hc).
Defined.

(** C2 against the code: the parameter [initval] is an [unsigned int], so
    [eventfd(2^32 + 5, 0)] stores 5 and the read that follows returns 5, not
    the value asked for; and a write of 5 to the object of [eventfd(3, 0)]
    is followed by a read of 8, not of 5. *)
Lemma default_read_returns_other_value :
  (0 < 2 ^ 32 + 5 <= UINT64_MAX /\
   exists efd efd',
     create [efd_zero] 3 (2 ^ 32 + 5) 0 = (Returned 3, Some 0%nat, [efd]) /\
     Z.land (flags efd) Zephyr.EFD_SEMAPHORE = 0 /\
     read_op 1 efd 0 8 = Some (Returned 8, 5, efd') /\
     5 <> 2 ^ 32 + 5 /\
     cnt efd' = 0) /\
  (exists efd efd1 efd2,
     create [efd_zero] 3 3 0 = (Returned 3, Some 0%nat, [efd]) /\
     Z.land (flags efd) Zephyr.EFD_SEMAPHORE = 0 /\
     write_op 1 efd 5 8 = Some (Returned 8, efd1) /\
     read_op 1 efd1 0 8 = Some (Returned 8, 8, efd2) /\
     8 <> 5 /\
     cnt efd2 = 0).
Proof.
  split.
  - split; [by_evaluation |].
    exists (fresh 5 0). eexists.
    split; [by_evaluation |]. split; [by_evaluation |].
    split; [by_evaluation |]. split; by_evaluation.
  - exists (fresh 3 0). do 2 eexists.
    split; [by_evaluation |]. split; [by_evaluation |].
    split; [by_evaluation |]. split; [by_evaluation |].
    split; by_evaluation.
Qed.

(** C2 at work: a read of an object holding 9; [eventfd(0, 0)], a write of
    5 and a read; [eventfd(7, 0)] and a read. *)
Lemma default_mode_read_drains_witness :
  Z.land Zephyr.EFD_IN_USE Zephyr.EFD_SEMAPHORE = 0 /\
  (exists efd',
     read_op 1 (fresh 9 0) 0 8 = Some (Returned 8, 9, efd') /\
     cnt efd' = 0 /\ flags efd' = flags (fresh 9 0)) /\
  (exists efd1 efd2,
     write_op 1 (fresh 0 0) 5 8 = Some (Returned 8, efd1) /\
     read_op 1 efd1 0 8 = Some (Returned 8, 5, efd2) /\
     cnt efd2 = 0) /\
  (exists efd efd',
     nth_error [fresh 7 0] 0 = Some efd /\
     read_op 1 efd 0 8 = Some (Returned 8, 7, efd') /\
     cnt efd' = 0).
Proof.
  assert (H0 : Z.land Zephyr.EFD_IN_USE Zephyr.EFD_SEMAPHORE = 0) by by_evaluation.
  destruct (default_mode_read_drains Zephyr.EFD_IN_USE Zephyr.EFD_SEMAPHORE
              Zephyr.EFD_NONBLOCK H0) as (Hread & Hround & Hcreate).
  split; [exact H0 |]. split; [| split].
  - apply (Hread 0%nat (fresh 9 0) 0 8 9); by_evaluation.
  - apply (Hround 0%nat 0%nat (fresh 0 0) 5 0 8 8); by_evaluation.
  - apply (Hcreate 0%nat [efd_zero] 3 7 0 3 0%nat [fresh 7 0] 0 8); by_evaluation.
Defined.

(** C3 at work: a read of an object holding 2 in semaphore mode;
    [eventfd(0, EFD_SEMAPHORE | EFD_NONBLOCK)], a write of 3 and four
    reads. *)
Lemma semaphore_mode_read_takes_one_witness :
  (exists efd',
     read_op 1 (fresh 2 Zephyr.EFD_SEMAPHORE) 0 8 = Some (Returned 8, 1, efd') /\
     cnt efd' = 2 - 1 /\ flags efd' = flags (fresh 2 Zephyr.EFD_SEMAPHORE)) /\
  (exists efd e1 e2 e3 e4,
     nth_error [fresh 0 16386] 0 = Some efd /\
     write_op 1 efd 3 8 = Some (Returned 8, e1) /\
     read_op 1 e1 0 8 = Some (Returned 8, 1, e2) /\
     read_op 1 e2 1 8 = Some (Returned 8, 1, e3) /\
     read_op 1 e3 1 8 = Some (Returned 8, 1, e4) /\
     exists e5, read_op 1 e4 1 8 = Some (Failed EAGAIN, 1, e5)).
Proof.
  destruct (semaphore_mode_read_takes_one Zephyr.EFD_IN_USE Zephyr.EFD_SEMAPHORE
              Zephyr.EFD_NONBLOCK) as (Hread & Hthree).
  split.
  - apply (Hread 0%nat (fresh 2 Zephyr.EFD_SEMAPHORE) 0 8 2); by_evaluation.
  - destruct (Hthree 0%nat [efd_zero] 3 16386 3 0%nat [fresh 0 16386] 0 8)
      as (efd & e1 & e2 & e3 & e4 & Hn & Hw & H1 & H2 & H3 & H4);
      [by_evaluation | by_evaluation | by_evaluation |].
    exists efd, e1, e2, e3, e4. repeat (split; [assumption |]).
    apply H4. by_evaluation.
Defined.

(** C5 at work: the object of [eventfd(5, EFD_NONBLOCK)] after a write of
    [UINT64_MAX - 6], which fills the counter as far as it goes, and after
    a further write of 1, which fails. *)
Lemma counter_never_sentinel_witness :
  exists efd,
    write_op 1 (fresh 5 Zephyr.EFD_NONBLOCK) (UINT64_MAX - 6) 8 =
      Some (Returned 8, efd) /\
    write_op 1 efd 1 8 = Some (Failed EAGAIN, efd) /\
    reaches efd /\
    cnt efd = UINT64_MAX - 1 /\
    cnt efd <> UINT64_MAX.
Proof.
  set (efd := set_cnt (fresh 5 Zephyr.EFD_NONBLOCK) (UINT64_MAX - 1)).
  assert (H1 : write_op 1 (fresh 5 Zephyr.EFD_NONBLOCK) (UINT64_MAX - 6) 8 =
               Some (Returned 8, efd)) by by_evaluation.
  assert (H2 : write_op 1 efd 1 8 = Some (Failed EAGAIN, efd)) by by_evaluation.
  assert (R0 : reaches (fresh 5 Zephyr.EFD_NONBLOCK)).
  { apply (reach_create _ _ _ _ _ _ _ _ [efd_zero] 3 5 Zephyr.EFD_NONBLOCK
             3 0%nat [fresh 5 Zephyr.EFD_NONBLOCK]); by_evaluation. }
  assert (R1 : reaches efd).
  { apply (reach_write _ _ _ _ _ _ _ _ 1%nat (fresh 5 Zephyr.EFD_NONBLOCK)
             (UINT64_MAX - 6) 8 (Returned 8) efd R0); [by_evaluation | exact H1]. }
  assert (R2 : reaches efd).
  { apply (reach_write _ _ _ _ _ _ _ _ 1%nat efd 1 8 (Failed EAGAIN) efd R1);
      [by_evaluation | exact H2]. }
  exists efd. split; [exact H1 |]. split; [exact H2 |]. split; [exact R2 |].
  split; [reflexivity |].
  exact (counter_never_sentinel _ _ _ _ _ _ _ _ efd R2).
Defined.

(** C9 at work: both events asked for, the semaphore became available. *)
Lemma poll_update_reports_witness :
  poll_update
    {| pfd := {| fd := 3; events := 5; revents := 0 |};
       pevs := [{| obj := Some 0%nat;
                   type := Zephyr.K_POLL_TYPE_SEM_AVAILABLE;
                   mode := Zephyr.K_POLL_MODE_NOTIFY_ONLY;
                   state := Zephyr.K_POLL_STATE_SEM_AVAILABLE |}];
       pev := 0 |} =
  Some (Returned 0,
        {| pfd := {| fd := 3; events := 5; revents := 5 |};
           pevs := [{| obj := Some 0%nat;
                       type := Zephyr.K_POLL_TYPE_SEM_AVAILABLE;
                       mode := Zephyr.K_POLL_MODE_NOTIFY_ONLY;
                       state := Zephyr.K_POLL_STATE_SEM_AVAILABLE |}];
           pev := 1 |}) /\
  exists m',
    poll_update
      {| pfd := {| fd := 3; events := 5; revents := 0 |};
         pevs := [{| obj := Some 0%nat;
                     type := Zephyr.K_POLL_TYPE_SEM_AVAILABLE;
                     mode := Zephyr.K_POLL_MODE_NOTIFY_ONLY;
                     state := Zephyr.K_POLL_STATE_SEM_AVAILABLE |}];
         pev := 0 |} = Some (Returned 0, m') /\
    revents (pfd m') = Z.lor 0 (Z.lor 4 1) /\
    pev m' = 1%nat.
Proof.
  split; [by_evaluation |].
  destruct (poll_update_reports Zephyr.EFD_SEMAPHORE Zephyr.EFD_NONBLOCK
              Zephyr.ZSOCK_POLLIN Zephyr.ZSOCK_POLLOUT
              Zephyr.K_POLL_TYPE_SEM_AVAILABLE Zephyr.K_POLL_MODE_NOTIFY_ONLY
              Zephyr.K_POLL_STATE_NOT_READY
              ltac:(by_evaluation) ltac:(by_evaluation) ltac:(by_evaluation)
              {| pfd := {| fd := 3; events := 5; revents := 0 |};
                 pevs := [{| obj := Some 0%nat;
                             type := Zephyr.K_POLL_TYPE_SEM_AVAILABLE;
                             mode := Zephyr.K_POLL_MODE_NOTIFY_ONLY;
                             state := Zephyr.K_POLL_STATE_SEM_AVAILABLE |}];
                 pev := 0 |}
              {| obj := Some 0%nat;
                 type := Zephyr.K_POLL_TYPE_SEM_AVAILABLE;
                 mode := Zephyr.K_POLL_MODE_NOTIFY_ONLY;
                 state := Zephyr.K_POLL_STATE_SEM_AVAILABLE |}
              ltac:(intros _; reflexivity))
    as (m' & Hupd & Hrev & _ & _ & _ & Hin & _).
  exists m'. split; [exact Hupd |]. split; [exact Hrev |].
  apply Hin. by_evaluation.
Defined.

(** C1 at work: the object of [eventfd(0, 0)] and the request
    [F_SETFL] with [EFD_NONBLOCK]. *)
Lemma setfl_clears_in_use_witness :
  Z.land (flags (fresh 0 0)) Zephyr.EFD_IN_USE = Zephyr.EFD_IN_USE /\
  exists efd',
    ioctl_op 0%nat (fresh 0 0) (F_SETFL Zephyr.EFD_NONBLOCK) =
      Some (Returned 0, efd', None) /\
    flags efd' = Zephyr.EFD_NONBLOCK /\
    cnt efd' = cnt (fresh 0 0) /\
    Z.land (flags efd') Zephyr.EFD_IN_USE = 0.
Proof.
  split; [by_evaluation |].
  apply (setfl_clears_in_use Zephyr.EFD_IN_USE Zephyr.EFD_SEMAPHORE
           Zephyr.EFD_NONBLOCK Zephyr.ZSOCK_POLLIN Zephyr.ZSOCK_POLLOUT
           Zephyr.K_POLL_TYPE_SEM_AVAILABLE Zephyr.K_POLL_MODE_NOTIFY_ONLY
           Zephyr.K_POLL_STATE_NOT_READY);
    by_evaluation.
Defined.

(** With one slot in the pool: a second [eventfd] call finds no free slot,
    also after a F_GETFL request; after a F_SETFL request that succeeds it
    claims the slot of the first one, whose counter it overwrites, as it
    does after ZFD_IOCTL_CLOSE. *)
Example setfl_lets_create_reuse_slot :
  create [efd_zero] 3 5 0 = (Returned 3, Some 0%nat, [fresh 5 0]) /\
  create [fresh 5 0] 4 9 0 = (Failed ENOMEM, None, [fresh 5 0]) /\
  ioctl_op 0%nat (fresh 5 0) F_GETFL = Some (Returned 0, fresh 5 0, None) /\
  ioctl_op 0%nat (fresh 5 0) (F_SETFL 0) =
    Some (Returned 0, set_flags (fresh 5 0) 0, None) /\
  create [set_flags (fresh 5 0) 0] 4 9 0 = (Returned 4, Some 0%nat, [fresh 9 0]) /\
  ioctl_op 0%nat (fresh 5 0) ZFD_IOCTL_CLOSE =
    Some (Returned 0, set_flags (fresh 5 0) 0, None).
Proof.
  repeat split; by_evaluation.
Qed.

(** ** More of the model at work *)

Local Abbreviation poll_prepare :=
  (eventfd_poll_prepare Zephyr.ZSOCK_POLLIN Zephyr.K_POLL_TYPE_SEM_AVAILABLE
     Zephyr.K_POLL_MODE_NOTIFY_ONLY Zephyr.K_POLL_STATE_NOT_READY).
Local Abbreviation write_all := (write_each Zephyr.EFD_NONBLOCK).
Local Abbreviation flags_set :=
  (EFD_FLAGS_SET Zephyr.EFD_SEMAPHORE Zephyr.EFD_NONBLOCK).

Ltac evaluated :=
  first [ by_evaluation
        | vm_compute; lia
        | cbv; lia ].

(** The object [eventfd] leaves in the only slot of a pool of one. *)
Lemma fresh_object_reaches (initval flags_arg : Z) :
  Z.land flags_arg (Z.lnot flags_set) = 0 ->
  reaches (fresh (unsigned_int initval) flags_arg).
Proof.
  intros Hvalid.
  apply (reach_create _ _ _ _ _ _ _ _ [efd_zero] 0 initval flags_arg 0 0%nat
           [fresh (unsigned_int initval) flags_arg]).
  - now apply eventfd_succeeds.
  - reflexivity.
Qed.


(** X2 at work: a write of 7 to an object holding 5. *)
Lemma write_adds_exactly_witness :
  write_op 1 (fresh 5 0) 7 8 = Some (Returned 8, set_cnt (fresh 5 0) 12) /\
  cnt (set_cnt (fresh 5 0) 12) = cnt (fresh 5 0) + 7 /\
  cnt (set_cnt (fresh 5 0) 12) < UINT64_MAX /\
  flags (set_cnt (fresh 5 0) 12) = flags (fresh 5 0).
Proof.
  assert (H : write_op 1 (fresh 5 0) 7 8 =
              Some (Returned 8, set_cnt (fresh 5 0) 12)) by evaluated.
  split; [exact H |].
  apply (write_adds_exactly Zephyr.EFD_NONBLOCK 1%nat (fresh 5 0) 7 8 8
           (set_cnt (fresh 5 0) 12)); [evaluated | evaluated | exact H].
Defined.

(** X3 at work: three writes of 1, then one read. *)
Lemma writes_accumulate_witness :
  exists efd1 efd2,
    write_all 1 (fresh 0 0) [1; 1; 1] 8 = Some efd1 /\
    read_op 1 efd1 0 8 =
      Some (Returned 8, cnt (fresh 0 0) + fold_right Z.add 0 [1; 1; 1], efd2) /\
    cnt efd2 = 0.
Proof.
  apply (writes_accumulate Zephyr.EFD_SEMAPHORE Zephyr.EFD_NONBLOCK 0%nat
           (fresh 0 0) [1; 1; 1] 0 8);
    [evaluated | evaluated | evaluated | | evaluated].
  intros v [<- | [<- | [<- | []]]]; lia.
Defined.

(** X4 at work: an empty object, blocking and non-blocking. *)
Lemma eagain_only_when_nonblocking_witness :
  (forall buf' efd',
     read_op 1 (fresh 0 0) 0 8 <> Some (Failed EAGAIN, buf', efd')) /\
  (exists o buf' efd',
     read_op 1 (fresh 0 Zephyr.EFD_NONBLOCK) 0 8 = Some (o, buf', efd') /\
     o <> Suspended) /\
  (exists o efd',
     write_op 1 (fresh 5 Zephyr.EFD_NONBLOCK) (UINT64_MAX - 5) 8 =
       Some (o, efd') /\
     o <> Suspended).
Proof.
  split; [| split].
  - apply (eagain_only_when_nonblocking Zephyr.EFD_SEMAPHORE Zephyr.EFD_NONBLOCK
             1%nat (fresh 0 0) 0 8). evaluated.
  - apply (eagain_only_when_nonblocking Zephyr.EFD_SEMAPHORE Zephyr.EFD_NONBLOCK
             0%nat (fresh 0 Zephyr.EFD_NONBLOCK) 0 8). evaluated.
  - apply (eagain_only_when_nonblocking Zephyr.EFD_SEMAPHORE Zephyr.EFD_NONBLOCK
             0%nat (fresh 5 Zephyr.EFD_NONBLOCK) (UINT64_MAX - 5) 8). evaluated.
Defined.

(** X5 at work: two passes are enough for an object whose semaphores hold
    at most one unit, and five give the same. *)
Lemma calls_end_within_semaphore_count_witness :
  (exists r,
     read_op 2 (fresh 0 0) 0 8 = Some r /\
     read_op (2 + 3) (fresh 0 0) 0 8 = Some r) /\
  (exists r,
     write_op 2 (fresh 5 0) (UINT64_MAX - 5) 8 = Some r /\
     write_op (2 + 3) (fresh 5 0) (UINT64_MAX - 5) 8 = Some r).
Proof.
  split.
  - apply (calls_end_within_semaphore_count Zephyr.EFD_SEMAPHORE
             Zephyr.EFD_NONBLOCK (fresh 0 0) 0 8 2%nat 3%nat). evaluated.
  - apply (calls_end_within_semaphore_count Zephyr.EFD_SEMAPHORE
             Zephyr.EFD_NONBLOCK (fresh 5 0) (UINT64_MAX - 5) 8 2%nat 3%nat).
    evaluated.
Defined.

(** X6 at work: F_SETFL with [EFD_SEMAPHORE] on an object holding 5. *)
Lemma ioctl_keeps_counter_and_semaphores_witness :
  ioctl_op 0%nat (fresh 5 0) (F_SETFL Zephyr.EFD_SEMAPHORE) =
    Some (Returned 0, set_flags (fresh 5 0) Zephyr.EFD_SEMAPHORE, None) /\
  cnt (set_flags (fresh 5 0) Zephyr.EFD_SEMAPHORE) = cnt (fresh 5 0) /\
  read_sem (set_flags (fresh 5 0) Zephyr.EFD_SEMAPHORE) = read_sem (fresh 5 0) /\
  write_sem (set_flags (fresh 5 0) Zephyr.EFD_SEMAPHORE) = write_sem (fresh 5 0).
Proof.
  assert (H : ioctl_op 0%nat (fresh 5 0) (F_SETFL Zephyr.EFD_SEMAPHORE) =
              Some (Returned 0, set_flags (fresh 5 0) Zephyr.EFD_SEMAPHORE, None))
    by evaluated.
  split; [exact H |].
  destruct (ioctl_keeps_counter_and_semaphores Zephyr.EFD_SEMAPHORE
              Zephyr.EFD_NONBLOCK Zephyr.ZSOCK_POLLIN Zephyr.ZSOCK_POLLOUT
              Zephyr.K_POLL_TYPE_SEM_AVAILABLE Zephyr.K_POLL_MODE_NOTIFY_ONLY
              Zephyr.K_POLL_STATE_NOT_READY _ _ _ _ _ _ H)
    as (Hc & Hr & Hw & _).
  split; [exact Hc |]. split; [exact Hr | exact Hw].
Defined.

(** X7 at work: [EFD_IN_USE] passed as a flag, a pool of one slot in use,
    and [z_reserve_fd] returning -1. *)
Lemma eventfd_failure_leaves_pool_witness :
  create [efd_zero] 3 0 Zephyr.EFD_IN_USE = (Failed EINVAL, None, [efd_zero]) /\
  create [fresh 5 0] 3 0 0 = (Failed ENOMEM, None, [fresh 5 0]) /\
  create [fresh 5 0; efd_zero] (-1) 0 0 =
    (Returned (-1), None, [fresh 5 0; efd_zero]).
Proof.
  split; [| split].
  - apply (eventfd_failure_leaves_pool Zephyr.EFD_IN_USE Zephyr.EFD_SEMAPHORE
             Zephyr.EFD_NONBLOCK [efd_zero] 3 0 Zephyr.EFD_IN_USE). evaluated.
  - apply (eventfd_failure_leaves_pool Zephyr.EFD_IN_USE Zephyr.EFD_SEMAPHORE
             Zephyr.EFD_NONBLOCK [fresh 5 0] 3 0 0); [evaluated |].
    intros e [<- | []]. evaluated.
  - apply (eventfd_failure_leaves_pool Zephyr.EFD_IN_USE Zephyr.EFD_SEMAPHORE
             Zephyr.EFD_NONBLOCK [fresh 5 0; efd_zero] (-1) 0 0);
      [evaluated | | evaluated].
    exists efd_zero. split; [right; now left | evaluated].
Defined.

(** X8 at work: the first slot in use, the two behind it free. *)
Lemma eventfd_claims_first_free_slot_witness :
  create [fresh 5 0; efd_zero; efd_zero] 4 9 0 =
    (Returned 4, Some 1%nat, [fresh 5 0; fresh 9 0; efd_zero]) /\
  length [fresh 5 0; fresh 9 0; efd_zero] = length [fresh 5 0; efd_zero; efd_zero] /\
  (forall j, j <> 1%nat ->
     nth_error [fresh 5 0; fresh 9 0; efd_zero] j =
     nth_error [fresh 5 0; efd_zero; efd_zero] j).
Proof.
  assert (H : create [fresh 5 0; efd_zero; efd_zero] 4 9 0 =
              (Returned 4, Some 1%nat, [fresh 5 0; fresh 9 0; efd_zero]))
    by evaluated.
  split; [exact H |].
  destruct (eventfd_claims_first_free_slot Zephyr.EFD_IN_USE Zephyr.EFD_SEMAPHORE
              Zephyr.EFD_NONBLOCK _ _ _ _ _ _ _ H) as (Hlen & Hother & _).
  split; [exact Hlen | exact Hother].
Defined.

(** X9 at work: the only slot of a pool is closed and claimed again. *)
Lemma close_frees_slot_witness :
  exists efd' j,
    ioctl_op 0%nat (fresh 5 0) ZFD_IOCTL_CLOSE = Some (Returned 0, efd', None) /\
    flags efd' = 0 /\
    cnt efd' = cnt (fresh 5 0) /\
    (j <= 0)%nat /\
    exists efds',
      create (update_nth [fresh 5 0] 0 efd') 4 9 0 = (Returned 4, Some j, efds').
Proof.
  destruct (close_frees_slot Zephyr.EFD_IN_USE Zephyr.EFD_SEMAPHORE
              Zephyr.EFD_NONBLOCK Zephyr.ZSOCK_POLLIN Zephyr.ZSOCK_POLLOUT
              Zephyr.K_POLL_TYPE_SEM_AVAILABLE Zephyr.K_POLL_MODE_NOTIFY_ONLY
              Zephyr.K_POLL_STATE_NOT_READY 0%nat [fresh 5 0] 0%nat (fresh 5 0)
              eq_refl)
    as (efd' & j & Hclose & Hfl & Hcnt & Hj & _ & Hcreate).
  exists efd', j. repeat (split; [assumption |]).
  apply (Hcreate 4 9 0); evaluated.
Defined.

(** X10 at work: an object created with 5, and one created with 0. *)
Lemma signals_track_counter_witness :
  reaches (fresh 5 0) /\
  ((asserted (read_sem (fresh 5 0)) = true <-> cnt (fresh 5 0) <> 0) /\
   binary_sem (read_sem (fresh 5 0)) /\
   binary_sem (write_sem (fresh 5 0))) /\
  ((asserted (read_sem (fresh 0 0)) = true <-> cnt (fresh 0 0) <> 0) /\
   binary_sem (read_sem (fresh 0 0)) /\
   binary_sem (write_sem (fresh 0 0))).
Proof.
  assert (R5 : reaches (fresh 5 0)) by (apply (fresh_object_reaches 5 0); evaluated).
  assert (R0 : reaches (fresh 0 0)) by (apply (fresh_object_reaches 0 0); evaluated).
  split; [exact R5 |]. split.
  - exact (signals_track_counter _ _ _ _ _ _ _ _ (fresh 5 0) R5).
  - exact (signals_track_counter _ _ _ _ _ _ _ _ (fresh 0 0) R0).
Defined.

(** X11 at work: a read of an object created with 5. *)
Lemma read_leaves_write_signal_asserted_witness :
  exists efd',
    read_op 1 (fresh 5 0) 0 8 = Some (Returned 8, 5, efd') /\
    asserted (write_sem (fresh 5 0)) = false /\
    asserted (write_sem efd') = true /\
    count (write_sem efd') = 1.
Proof.
  assert (R : reaches (fresh 5 0)) by (apply (fresh_object_reaches 5 0); evaluated).
  eexists. split; [evaluated |]. split; [evaluated |].
  eapply (read_leaves_write_signal_asserted _ _ _ _ _ _ _ _ 1%nat (fresh 5 0) 0 8
            8 5 _ R).
  evaluated.
Defined.

(** X12 at work: two reads in a row of an object created with 5, without
    and with [EFD_NONBLOCK]. *)
Lemma second_read_finds_object_empty_witness :
  (exists efd1,
     read_op 1 (fresh 5 0) 0 8 = Some (Returned 8, cnt (fresh 5 0), efd1) /\
     cnt efd1 = 0 /\
     read_op 1 efd1 (cnt (fresh 5 0)) 8 =
       Some (Suspended, cnt (fresh 5 0), efd1)) /\
  (exists efd1,
     read_op 1 (fresh 5 Zephyr.EFD_NONBLOCK) 0 8 =
       Some (Returned 8, cnt (fresh 5 Zephyr.EFD_NONBLOCK), efd1) /\
     cnt efd1 = 0 /\
     read_op 1 efd1 (cnt (fresh 5 Zephyr.EFD_NONBLOCK)) 8 =
       Some (Failed EAGAIN, cnt (fresh 5 Zephyr.EFD_NONBLOCK), efd1)).
Proof.
  assert (R : reaches (fresh 5 0)) by (apply (fresh_object_reaches 5 0); evaluated).
  assert (Rnb : reaches (fresh 5 Zephyr.EFD_NONBLOCK))
    by (apply (fresh_object_reaches 5 Zephyr.EFD_NONBLOCK); evaluated).
  split.
  - destruct (second_read_finds_object_empty _ _ _ _ _ _ _ _ 0%nat (fresh 5 0)
                0 8 R ltac:(evaluated) ltac:(evaluated) ltac:(evaluated))
      as (efd1 & H1 & Hc & _ & Hb).
    exists efd1. split; [exact H1 |]. split; [exact Hc |]. apply Hb. evaluated.
  - destruct (second_read_finds_object_empty _ _ _ _ _ _ _ _ 0%nat
                (fresh 5 Zephyr.EFD_NONBLOCK) 0 8 Rnb
                ltac:(evaluated) ltac:(evaluated) ltac:(evaluated))
      as (efd1 & H1 & Hc & Hnb & _).
    exists efd1. split; [exact H1 |]. split; [exact Hc |]. apply Hnb. evaluated.
Defined.

(** X13 at work: the counter filled up to [UINT64_MAX - 1] on a blocking
    object, then a write of 1. *)
Lemma blocking_write_overflow_suspends_witness :
  write_op 1 (fresh 5 0) (UINT64_MAX - 6) 8 =
    Some (Returned 8, set_cnt (fresh 5 0) (UINT64_MAX - 1)) /\
  reaches (set_cnt (fresh 5 0) (UINT64_MAX - 1)) /\
  write_op 2 (set_cnt (fresh 5 0) (UINT64_MAX - 1)) 1 8 =
    Some (Suspended,
          set_write_sem (set_cnt (fresh 5 0) (UINT64_MAX - 1)) (k_sem_init 0 1)).
Proof.
  assert (R : reaches (fresh 5 0)) by (apply (fresh_object_reaches 5 0); evaluated).
  assert (H : write_op 1 (fresh 5 0) (UINT64_MAX - 6) 8 =
              Some (Returned 8, set_cnt (fresh 5 0) (UINT64_MAX - 1)))
    by evaluated.
  assert (R1 : reaches (set_cnt (fresh 5 0) (UINT64_MAX - 1))).
  { apply (reach_write _ _ _ _ _ _ _ _ 1%nat (fresh 5 0) (UINT64_MAX - 6) 8
             (Returned 8) _ R); [evaluated | exact H]. }
  split; [exact H |]. split; [exact R1 |].
  apply (blocking_write_overflow_suspends _ _ _ _ _ _ _ _ 0%nat
           (set_cnt (fresh 5 0) (UINT64_MAX - 1)) 1 8 R1); evaluated.
Defined.

(** X14 at work: an object created in default mode holding 5 is switched to
    semaphore mode. *)
Lemma setfl_switches_read_mode_witness :
  exists efd1,
    ioctl_op 0%nat (fresh 5 0) (F_SETFL Zephyr.EFD_SEMAPHORE) =
      Some (Returned 0, efd1, None) /\
    exists efd2, read_op 1 efd1 0 8 = Some (Returned 8, 1, efd2).
Proof.
  destruct (setfl_switches_read_mode Zephyr.EFD_SEMAPHORE Zephyr.EFD_NONBLOCK
              Zephyr.ZSOCK_POLLIN Zephyr.ZSOCK_POLLOUT
              Zephyr.K_POLL_TYPE_SEM_AVAILABLE Zephyr.K_POLL_MODE_NOTIFY_ONLY
              Zephyr.K_POLL_STATE_NOT_READY 0%nat 0%nat (fresh 5 0)
              Zephyr.EFD_SEMAPHORE 0 8
              ltac:(evaluated) ltac:(evaluated) ltac:(evaluated))
    as (efd1 & Hset & Hread & _).
  exists efd1. split; [exact Hset |].
  apply Hread. evaluated.
Defined.


(** X16 at work: an array of one event, first with room, then full. *)
Lemma poll_prepare_binds_slot_witness :
  (exists m',
     poll_prepare 0%nat
       {| pfd := {| fd := 3; events := 1; revents := 0 |};
          pevs := [{| obj := None; type := 0; mode := 0; state := 7 |}];
          pev := 0 |} 1%nat = Some (Returned 0, m') /\
     pev m' = 1%nat /\
     nth_error (pevs m') 0 =
       Some {| obj := Some 0%nat;
               type := Zephyr.K_POLL_TYPE_SEM_AVAILABLE;
               mode := Zephyr.K_POLL_MODE_NOTIFY_ONLY;
               state := Zephyr.K_POLL_STATE_NOT_READY |}) /\
  poll_prepare 0%nat
    {| pfd := {| fd := 3; events := 1; revents := 0 |};
       pevs := [{| obj := None; type := 0; mode := 0; state := 7 |}];
       pev := 1 |} 1%nat =
  Some (Failed ENOMEM,
        {| pfd := {| fd := 3; events := 1; revents := 0 |};
           pevs := [{| obj := None; type := 0; mode := 0; state := 7 |}];
           pev := 1 |}).
Proof.
  split.
  - destruct (proj2 (proj2
                (poll_prepare_binds_slot Zephyr.ZSOCK_POLLIN
                   Zephyr.K_POLL_TYPE_SEM_AVAILABLE Zephyr.K_POLL_MODE_NOTIFY_ONLY
                   Zephyr.K_POLL_STATE_NOT_READY 0%nat
                   {| pfd := {| fd := 3; events := 1; revents := 0 |};
                      pevs := [{| obj := None; type := 0; mode := 0; state := 7 |}];
                      pev := 0 |} 1%nat))
                ltac:(evaluated) ltac:(evaluated) ltac:(evaluated))
      as (m' & Hp & _ & Hpev & _ & Hev & _).
    exists m'. split; [exact Hp |]. split; [exact Hpev | exact Hev].
  - apply (proj1 (proj2
             (poll_prepare_binds_slot Zephyr.ZSOCK_POLLIN
                Zephyr.K_POLL_TYPE_SEM_AVAILABLE Zephyr.K_POLL_MODE_NOTIFY_ONLY
                Zephyr.K_POLL_STATE_NOT_READY 0%nat
                {| pfd := {| fd := 3; events := 1; revents := 0 |};
                   pevs := [{| obj := None; type := 0; mode := 0; state := 7 |}];
                   pev := 1 |} 1%nat))); evaluated.
Defined.

(** X17 at work: [eventfd(5, EFD_SEMAPHORE | EFD_NONBLOCK)], then F_GETFL. *)
Lemma getfl_returns_mode_flags_witness :
  create [efd_zero] 3 5 16386 = (Returned 3, Some 0%nat, [fresh 5 16386]) /\
  exists efd,
    nth_error [fresh 5 16386] 0 = Some efd /\
    ioctl_op 0%nat efd F_GETFL = Some (Returned 16386, efd, None).
Proof.
  assert (H : create [efd_zero] 3 5 16386 =
              (Returned 3, Some 0%nat, [fresh 5 16386])) by evaluated.
  split; [exact H |].
  apply (proj1 (getfl_returns_mode_flags Zephyr.EFD_IN_USE Zephyr.EFD_SEMAPHORE
                  Zephyr.EFD_NONBLOCK Zephyr.ZSOCK_POLLIN Zephyr.ZSOCK_POLLOUT
                  Zephyr.K_POLL_TYPE_SEM_AVAILABLE Zephyr.K_POLL_MODE_NOTIFY_ONLY
                  Zephyr.K_POLL_STATE_NOT_READY eq_refl eq_refl 0%nat)
           [efd_zero] 3 5 16386 3 0%nat [fresh 5 16386] H).
Defined.

(** X18 at work: both events asked for; prepare, then update at once. *)
Lemma update_follows_prepare_witness :
  exists m1 m2,
    poll_prepare 0%nat
      {| pfd := {| fd := 3; events := 5; revents := 0 |};
         pevs := [{| obj := None; type := 0; mode := 0; state := 7 |}];
         pev := 0 |} 1%nat = Some (Returned 0, m1) /\
    poll_update {| pfd := pfd m1; pevs := pevs m1; pev := 0 |} =
      Some (Returned 0, m2) /\
    pev m2 = pev m1 /\
    pevs m2 = pevs m1 /\
    Z.land (revents (pfd m2)) Zephyr.ZSOCK_POLLIN = Z.land 0 Zephyr.ZSOCK_POLLIN.
Proof.
  eexists.
  assert (Hp : poll_prepare 0%nat
                 {| pfd := {| fd := 3; events := 5; revents := 0 |};
                    pevs := [{| obj := None; type := 0; mode := 0; state := 7 |}];
                    pev := 0 |} 1%nat =
               Some (Returned 0,
                     {| pfd := {| fd := 3; events := 5; revents := 0 |};
                        pevs := [{| obj := Some 0%nat;
                                    type := Zephyr.K_POLL_TYPE_SEM_AVAILABLE;
                                    mode := Zephyr.K_POLL_MODE_NOTIFY_ONLY;
                                    state := Zephyr.K_POLL_STATE_NOT_READY |}];
                        pev := 1 |})) by evaluated.
  destruct (update_follows_prepare Zephyr.ZSOCK_POLLIN Zephyr.ZSOCK_POLLOUT
              Zephyr.K_POLL_TYPE_SEM_AVAILABLE Zephyr.K_POLL_MODE_NOTIFY_ONLY
              Zephyr.K_POLL_STATE_NOT_READY eq_refl _ _ _ _ Hp)
    as (m2 & Hu & Hpev & Hpevs & Hrev).
  exists m2. split; [exact Hp |]. split; [exact Hu |].
  split; [exact Hpev |]. split; [exact Hpevs | exact Hrev].
Defined.

(** X19 at work: two calls on a pool of two free slots. *)
Lemma eventfd_hands_out_slots_in_order_witness :
  create [efd_zero; efd_zero] 3 5 0 =
    (Returned 3, Some 0%nat, [fresh 5 0; efd_zero]) /\
  create [fresh 5 0; efd_zero] 4 9 0 =
    (Returned 4, Some 1%nat, [fresh 5 0; fresh 9 0]) /\
  (0 < 1)%nat /\
  exists e,
    nth_error [fresh 5 0; efd_zero] 0 = Some e /\
    Z.land (flags e) Zephyr.EFD_IN_USE <> 0.
Proof.
  assert (H1 : create [efd_zero; efd_zero] 3 5 0 =
               (Returned 3, Some 0%nat, [fresh 5 0; efd_zero])) by evaluated.
  assert (H2 : create [fresh 5 0; efd_zero] 4 9 0 =
               (Returned 4, Some 1%nat, [fresh 5 0; fresh 9 0])) by evaluated.
  split; [exact H1 |]. split; [exact H2 |].
  apply (eventfd_hands_out_slots_in_order Zephyr.EFD_IN_USE Zephyr.EFD_SEMAPHORE
           Zephyr.EFD_NONBLOCK ltac:(evaluated) _ _ _ _ _ _ _ _ _ _ _ _ _ H1 H2).
Defined.

(** X20 at work: an object created with 3 in semaphore and non-blocking
    mode, three reads and a fourth. *)
Lemma semaphore_counter_serves_reads_witness :
  exists efd',
    read_each Zephyr.EFD_SEMAPHORE Zephyr.EFD_NONBLOCK 1 (fresh 3 16386) 0 3 8 =
      Some (repeat 1 3, efd') /\
    cnt efd' = cnt (fresh 3 16386) - Z.of_nat 3 /\
    exists efd'', read_op 1 efd' 1 8 = Some (Failed EAGAIN, 1, efd'').
Proof.
  destruct (semaphore_counter_serves_reads Zephyr.EFD_SEMAPHORE
              Zephyr.EFD_NONBLOCK 0%nat 8 ltac:(evaluated) 3%nat (fresh 3 16386) 0
              ltac:(evaluated) ltac:(evaluated))
    as (efd' & Hreads & Hc & _ & Hlast).
  exists efd'. split; [exact Hreads |]. split; [exact Hc |].
  apply Hlast; evaluated.
Defined.
